(** * statsview: the sampling scheduler, the viewers and the viewer registry

    A shallow embedding of the Go packages [viewer] (viewer.go and the
    GC-number viewer), [example/viewer] (the static demo viewer) and
    [statsview] (the viewer collection), followed by the properties of the
    scheduler's activity deadline, of the refresh loop, of the two [Serve]
    handlers, of [Register] and of the configuration options.

    Conventions of the embedding.
    - Go's [int] and [int64] are [Z] with the 64-bit wrap-around written out
      ([Go.wrap64]).
    - [float64] is not modelled bit by bit.  The only floating-point
      computations of the sources are [float64(n)] for an integer [n] and
      [int64(float64(n) / 1000.0)]; for [|n| <= 2^53] the conversion is exact
      and the truncated quotient is [Z.quot n 1000] (the rounding error of
      the division is below 2^-10 < 1/1000, so it never reaches the next
      integer).  A [float64] that holds an integer is kept as that integer.
    - The package-level variables ([defaultCfg], [memstats], the counter [i])
      and the heap of [*StatsMgr] objects form the global state [G.t]; code
      with effects lives in the state-and-panic monad [M].
    - The outside world is an [Env]: the wall clock and the runtime's
      statistics at each logical instant, [time.Format] and [json.Marshal].
    - Mutex operations and writes to the response are recorded, in program
      order, in the trace of the global state. *)

From Stdlib Require Import ZArith Lia Strings.Byte Sorted.
From stdpp Require Import base tactics option list strings.

#[local] Open Scope Z_scope.

(** ** Go's machine integers *)

Module Go.

Definition wrap64 (z : Z) : Z := (z + 2 ^ 63) mod 2 ^ 64 - 2 ^ 63.

Definition add64 (a b : Z) : Z := wrap64 (a + b).

Definition mul64 (a b : Z) : Z := wrap64 (a * b).

(** [a % b] of Go truncates toward zero, as [Z.rem] does. *)
Definition rem64 (a b : Z) : Z := Z.rem a b.

(** [int64(float64(n) / 1000.0)]: the float quotient truncated toward zero
    (exact for [|n| <= 2^53], see the header). *)
Definition int64_of_millis (n : Z) : Z := Z.quot n 1000.

End Go.

(** ** package viewer: configuration *)

Definition Theme := string.

Module config.

Record t := mk {
  AutoOpenBrowser : bool;
  Interval : Z;
  MaxPoints : Z;
  Template : string;
  ListenAddr : string;
  LinkAddr : string;
  TimeFormat : string;
  Theme : string;
}.

(** Field assignments [c.F = v]. *)
Definition set_AutoOpenBrowser (v : bool) (c : t) : t :=
  mk v (Interval c) (MaxPoints c) (Template c) (ListenAddr c) (LinkAddr c)
     (TimeFormat c) (Theme c).
Definition set_Interval (v : Z) (c : t) : t :=
  mk (AutoOpenBrowser c) v (MaxPoints c) (Template c) (ListenAddr c)
     (LinkAddr c) (TimeFormat c) (Theme c).
Definition set_MaxPoints (v : Z) (c : t) : t :=
  mk (AutoOpenBrowser c) (Interval c) v (Template c) (ListenAddr c)
     (LinkAddr c) (TimeFormat c) (Theme c).
Definition set_Template (v : string) (c : t) : t :=
  mk (AutoOpenBrowser c) (Interval c) (MaxPoints c) v (ListenAddr c)
     (LinkAddr c) (TimeFormat c) (Theme c).
Definition set_ListenAddr (v : string) (c : t) : t :=
  mk (AutoOpenBrowser c) (Interval c) (MaxPoints c) (Template c) v
     (LinkAddr c) (TimeFormat c) (Theme c).
Definition set_LinkAddr (v : string) (c : t) : t :=
  mk (AutoOpenBrowser c) (Interval c) (MaxPoints c) (Template c)
     (ListenAddr c) v (TimeFormat c) (Theme c).
Definition set_TimeFormat (v : string) (c : t) : t :=
  mk (AutoOpenBrowser c) (Interval c) (MaxPoints c) (Template c)
     (ListenAddr c) (LinkAddr c) v (Theme c).
Definition set_Theme (v : string) (c : t) : t :=
  mk (AutoOpenBrowser c) (Interval c) (MaxPoints c) (Template c)
     (ListenAddr c) (LinkAddr c) (TimeFormat c) v.

End config.

Definition ThemeWesteros : Theme := "westeros".
Definition ThemeMacarons : Theme := "macarons".

(** The double quote character, for the template below. *)
Definition dq : string := String (Ascii.ascii_of_nat 34) EmptyString.

Definition DefaultTemplate : string :=
  ("
$(function () { setInterval({{ .ViewID }}_sync, {{ .Interval }}); });
function {{ .ViewID }}_sync() {
    $.ajax({
        type: " ++ dq ++ "GET" ++ dq ++ ",
        url: " ++ dq ++ "http://{{ .Addr }}/debug/statsview/view/{{ .Route }}" ++ dq ++ ",
        dataType: " ++ dq ++ "json" ++ dq ++ ",
        success: function (result) {
            let opt = goecharts_{{ .ViewID }}.getOption();

            let x = opt.xAxis[0].data;
            x.push(result.time);
            if (x.length > {{ .MaxPoints }}) {
                x = x.slice(1);
            }
            opt.xAxis[0].data = x;

            for (let i = 0; i < result.values.length; i++) {
                let y = opt.series[i].data;
                y.push({ value: result.values[i] });
                if (y.length > {{ .MaxPoints }}) {
                    y = y.slice(1);
                }
                opt.series[i].data = y;

                goecharts_{{ .ViewID }}.setOption(opt);
            }
        }
    });
}")%string.

Definition DefaultMaxPoints : Z := 30.
Definition DefaultTimeFormat : string := "15:04:05".
Definition DefaultInterval : Z := 2000.
Definition DefaultAddr : string := "localhost:18066".
Definition DefaultTheme : Theme := ThemeMacarons.

(** The initial value of the package variable [defaultCfg]. *)
Definition defaultCfg0 : config.t :=
  {| config.AutoOpenBrowser := false;
     config.Interval := DefaultInterval;
     config.MaxPoints := DefaultMaxPoints;
     config.Template := DefaultTemplate;
     config.ListenAddr := DefaultAddr;
     config.LinkAddr := DefaultAddr;
     config.TimeFormat := DefaultTimeFormat;
     config.Theme := DefaultTheme |}.

(** [type Option func(c *config)]: an option mutates the configuration it is
    handed, here it returns the mutated record. *)
Definition Option := config.t → config.t.

Definition WithInterval (interval : Z) : Option :=
  λ c, config.set_Interval interval c.

Definition WithMaxPoints (n : Z) : Option :=
  λ c, config.set_MaxPoints n c.

Definition WithTemplate (t : string) : Option :=
  λ c, config.set_Template t c.

Definition WithAddr (addr : string) : Option :=
  λ c, config.set_LinkAddr addr (config.set_ListenAddr addr c).

Definition WithLinkAddr (addr : string) : Option :=
  λ c, config.set_LinkAddr addr c.

Definition WithTimeFormat (s : string) : Option :=
  λ c, config.set_TimeFormat s c.

Definition WithTheme (theme : Theme) : Option :=
  λ c, config.set_Theme theme c.

Definition WithBrowserOpen : Option :=
  λ c, config.set_AutoOpenBrowser true c.

(** The loop of [SetConfiguration]: every option applied, in argument order,
    to the same configuration. *)
Fixpoint applyOptions (opts : list Option) (c : config.t) : config.t :=
  match opts with
  | [] => c
  | opt :: opts' => applyOptions opts' (opt c)
  end.

(** ** package viewer: the shared state *)

(** [runtime.MemStats], the snapshot that [runtime.ReadMemStats] fills in.
    Of its fields the sources above read [NumGC] (a [uint32]); two of the
    byte counters stand for the rest. *)
Module MemStats.

Record t := mk {
  NumGC : Z;
  HeapAlloc : Z;
  StackInuse : Z;
}.

End MemStats.

(** [type StatsMgr struct]: [last] is the activity deadline and [time] the
    time of the last refresh, both in Unix seconds; [Ctx] tells whether the
    context's [Done] channel is closed ([Cancel] closes it). *)
Module StatsMgr.

Record t := mk {
  last : Z;
  time : Z;
  Ctx : bool;
}.

Definition set_last (v : Z) (s : t) : t := mk v (time s) (Ctx s).
Definition set_time (v : Z) (s : t) : t := mk (last s) v (Ctx s).
Definition set_Ctx (v : bool) (s : t) : t := mk (last s) (time s) v.

End StatsMgr.

(** A [*StatsMgr]: nil, or the address of an object of the heap. *)
Definition ptr := option nat.

(** [type Metrics struct]; the [float64] values served by the viewers are
    integers and are kept as such. *)
Module Metrics.

Record t := mk {
  Values : list Z;
  Time : string;
}.

End Metrics.

(** An [http.ResponseWriter] is known by the number of its request. *)
Definition ResponseWriter := nat.

(** What a run leaves behind, besides the state: the operations on
    [memstats.mu], the atomic stores, the statistics reads and the writes to
    a response. *)
Inductive action :=
  | MuLock
  | MuUnlock
  | MuRLock
  | MuRUnlock
  | StoreLast (a : nat) (v : Z)
  | StoreTime (a : nat) (v : Z)
  | ReadMemStats
  | WriteBody (w : ResponseWriter) (bs : list byte).

Module G.

Record t := mk {
  defaultCfg : config.t;
  memstats : MemStats.t;
  heap : list StatsMgr.t;
  i : Z;
  instant : nat;
  trace : list action;
}.

Definition set_defaultCfg (v : config.t) (g : t) : t :=
  mk v (memstats g) (heap g) (i g) (instant g) (trace g).
Definition set_memstats (v : MemStats.t) (g : t) : t :=
  mk (defaultCfg g) v (heap g) (i g) (instant g) (trace g).
Definition set_heap (v : list StatsMgr.t) (g : t) : t :=
  mk (defaultCfg g) (memstats g) v (i g) (instant g) (trace g).
Definition set_i (v : Z) (g : t) : t :=
  mk (defaultCfg g) (memstats g) (heap g) v (instant g) (trace g).
Definition set_instant (v : nat) (g : t) : t :=
  mk (defaultCfg g) (memstats g) (heap g) (i g) v (trace g).
Definition set_trace (v : list action) (g : t) : t :=
  mk (defaultCfg g) (memstats g) (heap g) (i g) (instant g) v.

(** The state of a program that has just been loaded: default
    configuration, zeroed statistics, empty heap, counter [i = 0]. *)
Definition init : t :=
  mk defaultCfg0 (MemStats.mk 0 0 0) [] 0 0%nat [].

End G.

(** The outside world.  [wall n] is what [time.Now().Unix()] answers at the
    logical instant [n], [runtimeStats n] what the runtime reports then; an
    instant passes at every question asked.  [formatUnix sec layout] is
    [time.Unix(sec, 0).Format(layout)], and [jsonMarshal] is [json.Marshal]
    with its two results, the bytes and the error. *)
Class Env := {
  wall : nat → Z;
  runtimeStats : nat → MemStats.t;
  formatUnix : Z → string → string;
  jsonMarshal : Metrics.t → list byte * option string;
}.

(** ** The monad of state and panics *)

Inductive result (A : Type) :=
  | Ok (a : A) (g : G.t)
  | Panic (msg : string).

Arguments Ok {A} a g.
Arguments Panic {A} msg.

Definition M (A : Type) : Type := G.t → result A.

#[global] Instance M_ret : MRet M := λ A a g, Ok a g.

#[global] Instance M_bind : MBind M := λ A B f m g,
  match m g with
  | Ok a g' => f a g'
  | Panic msg => Panic msg
  end.

Definition get : M G.t := λ g, Ok g g.

Definition modify (f : G.t → G.t) : M unit := λ g, Ok tt (f g).

Definition panic {A : Type} (msg : string) : M A := λ _, Panic msg.

Definition emit (a : action) : M unit :=
  modify (λ g, G.set_trace (G.trace g ++ [a]) g).

Definition nilDeref : string :=
  "invalid memory address or nil pointer dereference".

(** Reading through a [*StatsMgr]. *)
Definition load (s : ptr) : M StatsMgr.t := λ g,
  match s with
  | None => Panic nilDeref
  | Some a =>
      match G.heap g !! a with
      | Some o => Ok o g
      | None => Panic nilDeref
      end
  end.

(** [atomic.StoreInt64(&s.last, v)] and [atomic.StoreInt64(&s.time, v)]. *)
Definition storeLast (s : ptr) (v : Z) : M unit :=
  o ← load s;
  match s with
  | None => panic nilDeref
  | Some a =>
      modify (λ g, G.set_heap (<[a := StatsMgr.set_last v o]> (G.heap g)) g);;
      emit (StoreLast a v)
  end.

Definition storeTime (s : ptr) (v : Z) : M unit :=
  o ← load s;
  match s with
  | None => panic nilDeref
  | Some a =>
      modify (λ g, G.set_heap (<[a := StatsMgr.set_time v o]> (G.heap g)) g);;
      emit (StoreTime a v)
  end.

(** [&StatsMgr{...}]: a fresh object at the end of the heap. *)
Definition alloc (o : StatsMgr.t) : M ptr := λ g,
  Ok (Some (length (G.heap g))) (G.set_heap (G.heap g ++ [o]) g).

(** [time.Now().Unix()]. *)
Definition timeNowUnix `{Env} : M Z := λ g,
  Ok (wall (G.instant g)) (G.set_instant (S (G.instant g)) g).

(** [runtime.ReadMemStats(memstats.Stats)]. *)
Definition runtimeReadMemStats `{Env} : M unit := λ g,
  Ok tt
     (G.set_trace (G.trace g ++ [ReadMemStats])
        (G.set_instant (S (G.instant g))
           (G.set_memstats (runtimeStats (G.instant g)) g))).

(** ** package viewer: accessors of the configuration *)

Definition Addr : M string :=
  g ← get; mret (config.ListenAddr (G.defaultCfg g)).

Definition LinkAddr : M string :=
  g ← get; mret (config.LinkAddr (G.defaultCfg g)).

Definition Interval : M Z :=
  g ← get; mret (config.Interval (G.defaultCfg g)).

Definition TimeFormat : M string :=
  g ← get; mret (config.TimeFormat (G.defaultCfg g)).

Definition BrowserOpen : M bool :=
  g ← get; mret (config.AutoOpenBrowser (G.defaultCfg g)).

Definition SetConfiguration (opts : list Option) : M unit :=
  modify (λ g, G.set_defaultCfg (applyOptions opts (G.defaultCfg g)) g).

(** ** package viewer: the scheduler *)

(** [time.NewTicker(time.Duration(Interval()) * time.Millisecond)], the first
    statement of the goroutine [s.polling()]: a [Duration] counts
    nanoseconds in an [int64], and [NewTicker] panics on a period that is
    not positive, which ends the program. *)
Definition newTicker (interval : Z) : M unit :=
  if Go.mul64 interval 1000000 >? 0 then mret tt
  else panic "non-positive interval for NewTicker".

Definition NewStatsMgr `{Env} (ctx : bool) : M ptr :=
  now ← timeNowUnix;
  itv ← Interval;
  s ← alloc {| StatsMgr.last :=
                 Go.add64 now (Go.mul64 (Go.int64_of_millis itv) 2);
               StatsMgr.time := 0;
               StatsMgr.Ctx := ctx |};
  period ← Interval;
  newTicker period;;
  mret s.

Definition Tick `{Env} (s : ptr) : M unit :=
  load s;;
  now ← timeNowUnix;
  itv ← Interval;
  storeLast s (Go.add64 now (Go.mul64 (Go.int64_of_millis itv) 2)).

Definition GetTick (s : ptr) : M Z :=
  o ← load s; mret (StatsMgr.last o).

Definition TimeUpdate `{Env} (s : ptr) : M unit :=
  load s;;
  now ← timeNowUnix;
  storeTime s now.

Definition GetTime (s : ptr) : M Z :=
  o ← load s; mret (StatsMgr.time o).

(** The two channels the [select] of [polling] waits on. *)
Inductive wake :=
  | TickerC
  | CtxDone.

(** One turn of the [for { select { ... } }] of [polling], for the channel
    that became ready; the answer tells whether the loop goes on. *)
Definition pollingIter `{Env} (s : ptr) (w : wake) : M bool :=
  match w with
  | TickerC =>
      last ← GetTick s;
      now ← timeNowUnix;
      (if last >? now then
         emit MuLock;;
         TimeUpdate s;;
         runtimeReadMemStats;;
         emit MuUnlock
       else mret tt);;
      mret true
  | CtxDone => mret false
  end.

(** The loop of [polling] over the channels that become ready, in order;
    when they run out the goroutine is waiting in its [select]. *)
Fixpoint polling `{Env} (s : ptr) (ws : list wake) : M unit :=
  match ws with
  | [] => mret tt
  | w :: ws' =>
      continue ← pollingIter s w;
      if continue : bool then polling s ws' else mret tt
  end.

(** What happens to the scheduler at address [a] while the program runs: a
    consumer's pull calls [Tick], or the ticker fires and the loop of
    [polling] takes a turn.  A [Pull] is a call of [Tick] that no other
    event comes in between, from its reading of the clock to its store;
    pulls that overlap are taken apart under [fineEvent] below. *)
Inductive event :=
  | Pull (a : nat)
  | TickerFired (a : nat).

Definition step `{Env} (e : event) : M unit :=
  match e with
  | Pull a => Tick (Some a)
  | TickerFired a => pollingIter (Some a) TickerC;; mret tt
  end.

Fixpoint run `{Env} (evs : list event) : M unit :=
  match evs with
  | [] => mret tt
  | e :: evs' => step e;; run evs'
  end.

(** ** package viewer: viewers *)

(** What is kept of a [*charts.Line] of go-echarts: the route it pulls from,
    its title, the name of its Y axis, its series and its theme. *)
Record Line := mkLine {
  LineRoute : string;
  LineTitle : string;
  LineYAxis : string;
  LineSeries : list string;
  LineTheme : Theme;
}.

(** The anonymous struct that [genViewTemplate] hands to the template. *)
Module viewData.

Record t := mk {
  Interval : Z;
  MaxPoints : Z;
  Addr : string;
  Route : string;
  ViewID : string;
}.

End viewData.

(** The libraries behind a chart.  [templateParse text] is the error of
    [template.New("view").Parse(text)], if there is one;
    [templateExecute text c] is what executing the parsed template on [c]
    writes, or the error of [Execute]; [chartID n] is the [ChartID] that
    [charts.NewLine()] gives a chart made at the instant [n]. *)
Class ChartLib := {
  templateParse : string → option string;
  templateExecute : string → viewData.t → string + string;
  chartID : nat → string;
}.

(** [charts.NewLine()], for the identifier of the new chart. *)
Definition chartsNewLine `{ChartLib} : M string := λ g,
  Ok (chartID (G.instant g)) (G.set_instant (S (G.instant g)) g).

Definition genViewTemplate `{ChartLib} (vid route : string) : M string :=
  g ← get;
  match templateParse (config.Template (G.defaultCfg g)) with
  | Some err => panic ("statsview: failed to parse template " ++ err)
  | None =>
      let c :=
        {| viewData.Interval := config.Interval (G.defaultCfg g);
           viewData.MaxPoints := config.MaxPoints (G.defaultCfg g);
           viewData.Addr := config.LinkAddr (G.defaultCfg g);
           viewData.Route := route;
           viewData.ViewID := vid |} in
      match templateExecute (config.Template (G.defaultCfg g)) c with
      | inr err => panic ("statsview: failed to execute template " ++ err)
      | inl js => mret js
      end
  end.

(** The script that [genViewTemplate] returns is added to the chart; of
    the chart, [Line] keeps the five attributes above. *)
Definition NewBasicView `{ChartLib} (route : string) : M Line :=
  vid ← chartsNewLine;
  g ← get;
  genViewTemplate vid route;;
  mret (mkLine route EmptyString EmptyString []
          (config.Theme (G.defaultCfg g))).

(** [type Viewer interface]. *)
Class ViewerOps (V : Type) := {
  Name : V → string;
  View : V → Line;
  Serve : V → ResponseWriter → M unit;
  SetStatsMgr : V → ptr → V;
}.

(** A value of the interface type: an implementation and one of its
    values. *)
Record Viewer := asViewer {
  viewerType : Type;
  viewerOps : ViewerOps viewerType;
  viewerSelf : viewerType;
}.

Arguments asViewer {viewerType viewerOps} viewerSelf.

Definition viewerName (v : Viewer) : string :=
  @Name _ (viewerOps v) (viewerSelf v).

Definition VGCNum : string := "gcnum".

Module GCNumViewer.

Record t := mk {
  smgr : ptr;
  graph : Line;
}.

End GCNumViewer.

Definition NewGCNumViewer `{ChartLib} : M GCNumViewer.t :=
  graph ← NewBasicView VGCNum;
  mret (GCNumViewer.mk None
          (mkLine (LineRoute graph) "GC Number" "Num"
             (LineSeries graph ++ ["GcNum"%string]) (LineTheme graph))).

Definition GCNumViewer_SetStatsMgr (vr : GCNumViewer.t) (smgr : ptr)
  : GCNumViewer.t :=
  GCNumViewer.mk smgr (GCNumViewer.graph vr).

Definition GCNumViewer_Name (vr : GCNumViewer.t) : string := VGCNum.

Definition GCNumViewer_View (vr : GCNumViewer.t) : Line :=
  GCNumViewer.graph vr.

Definition GCNumViewer_Serve `{Env} (vr : GCNumViewer.t) (w : ResponseWriter)
  : M unit :=
  Tick (GCNumViewer.smgr vr);;
  emit MuRLock;;
  g ← get;
  t ← GetTime (GCNumViewer.smgr vr);
  layout ← TimeFormat;
  let metrics :=
    {| Metrics.Values := [MemStats.NumGC (G.memstats g)];
       Metrics.Time := formatUnix t layout |} in
  emit MuRUnlock;;
  let '(bs, _) := jsonMarshal metrics in
  emit (WriteBody w bs).

#[global] Instance GCNumViewer_ops `{Env} : ViewerOps GCNumViewer.t := {|
  Name := GCNumViewer_Name;
  View := GCNumViewer_View;
  Serve := GCNumViewer_Serve;
  SetStatsMgr := GCNumViewer_SetStatsMgr;
|}.

(** ** package example/viewer: the static viewer *)

Definition VStatic : string := "static".

Module StaticViewer.

Record t := mk {
  smgr : ptr;
  graph : Line;
}.

End StaticViewer.

Definition NewStaticViewer `{ChartLib} : M StaticViewer.t :=
  graph ← NewBasicView VStatic;
  mret (StaticViewer.mk None
          (mkLine (LineRoute graph) "Static count" "Num"
             (LineSeries graph ++ ["Count"%string]) (LineTheme graph))).

Definition StaticViewer_SetStatsMgr (vs : StaticViewer.t) (smgr : ptr)
  : StaticViewer.t :=
  StaticViewer.mk smgr (StaticViewer.graph vs).

Definition StaticViewer_Name (vs : StaticViewer.t) : string := VStatic.

Definition StaticViewer_View (vs : StaticViewer.t) : Line :=
  StaticViewer.graph vs.

Definition StaticViewer_Serve `{Env} (vs : StaticViewer.t) (w : ResponseWriter)
  : M unit :=
  Tick (StaticViewer.smgr vs);;
  g ← get;
  t ← GetTime (StaticViewer.smgr vs);
  layout ← TimeFormat;
  let metrics :=
    {| Metrics.Values := [Go.rem64 (G.i g) 10];
       Metrics.Time := formatUnix t layout |} in
  modify (λ g, G.set_i (Go.add64 (G.i g) 1) g);;
  let '(bs, _) := jsonMarshal metrics in
  emit (WriteBody w bs).

#[global] Instance StaticViewer_ops `{Env} : ViewerOps StaticViewer.t := {|
  Name := StaticViewer_Name;
  View := StaticViewer_View;
  Serve := StaticViewer_Serve;
  SetStatsMgr := StaticViewer_SetStatsMgr;
|}.

(** ** package statsview: the collection of viewers *)

Definition Viewers := list Viewer.

Definition NewEmptyViewers : Viewers := [].

(** The body of [Register] appends [views] to the collection the receiver
    points to; this is the collection after the call. *)
Definition Register (v : Viewers) (views : list Viewer) : Viewers :=
  v ++ views.

(** ** Observations on runs *)

(** The sample times that the refreshes of the scheduler at address [a]
    stored, oldest first. *)
Fixpoint stamps (a : nat) (tr : list action) : list Z :=
  match tr with
  | [] => []
  | StoreTime b v :: tr' =>
      if decide (b = a) then v :: stamps a tr' else stamps a tr'
  | _ :: tr' => stamps a tr'
  end.

(** [n] successive pulls of the static viewer, answered on the writers
    [w], [w + 1], ... *)
Fixpoint serveN `{Env} (vs : StaticViewer.t) (w : ResponseWriter) (n : nat)
  : M unit :=
  match n with
  | O => mret tt
  | S n' => StaticViewer_Serve vs w;; serveN vs (S w) n'
  end.

(** ** Concrete worlds *)

(** A marshaller that writes one byte per value, and one that fails on
    every input, as [json.Marshal] does on a value it does not support. *)
Definition marshalBytes (m : Metrics.t) : list byte * option string :=
  (map (λ v, default x00 (Byte.of_N (Z.to_N (v mod 256)))) (Metrics.Values m),
   None).

Definition marshalFails (m : Metrics.t) : list byte * option string :=
  ([], Some "json: unsupported value"%string).

(** A world whose clock reads [t0] at the first instant and then advances
    by [dt] seconds at every instant, and whose runtime has collected [n]
    times at instant [n]. *)
Definition linearEnv (t0 dt : Z)
    (marshal : Metrics.t → list byte * option string) : Env :=
  {| wall := λ n, t0 + dt * Z.of_nat n;
     runtimeStats := λ n, MemStats.mk (Z.of_nat n) 0 0;
     formatUnix := λ sec layout, layout;
     jsonMarshal := marshal |}.

(** A world whose clock answers the given readings, one per instant, and
    [rest] ever after. *)
Definition scriptedEnv (readings : list Z) (rest : Z)
    (marshal : Metrics.t → list byte * option string) : Env :=
  {| wall := λ n, nth n readings rest;
     runtimeStats := λ n, MemStats.mk (Z.of_nat n) 0 0;
     formatUnix := λ sec layout, layout;
     jsonMarshal := marshal |}.

(** The program state after [SetConfiguration(WithInterval(interval))]. *)
Definition configured (interval : Z) : G.t :=
  G.set_defaultCfg (applyOptions [WithInterval interval] defaultCfg0) G.init.

(** The same, with one scheduler on the heap whose deadline is [last]. *)
Definition scheduled (interval last : Z) : G.t :=
  G.set_heap [StatsMgr.mk last 0 false] (configured interval).

(** ** The options of the package, by name *)

(** A call of one of the eight option constructors. *)
Inductive optionCall :=
  | CallWithInterval (interval : Z)
  | CallWithMaxPoints (n : Z)
  | CallWithTemplate (t : string)
  | CallWithAddr (addr : string)
  | CallWithLinkAddr (addr : string)
  | CallWithTimeFormat (s : string)
  | CallWithTheme (theme : Theme)
  | CallWithBrowserOpen.

Definition optionOf (c : optionCall) : Option :=
  match c with
  | CallWithInterval interval => WithInterval interval
  | CallWithMaxPoints n => WithMaxPoints n
  | CallWithTemplate t => WithTemplate t
  | CallWithAddr addr => WithAddr addr
  | CallWithLinkAddr addr => WithLinkAddr addr
  | CallWithTimeFormat s => WithTimeFormat s
  | CallWithTheme theme => WithTheme theme
  | CallWithBrowserOpen => WithBrowserOpen
  end.

(** The fields of [config]. *)
Inductive field :=
  | FAutoOpenBrowser
  | FInterval
  | FMaxPoints
  | FTemplate
  | FListenAddr
  | FLinkAddr
  | FTimeFormat
  | FTheme.

#[global] Instance field_eq_dec : EqDecision field.
Proof. solve_decision. Defined.

(** The fields that the body of an option assigns. *)
Definition assigned (c : optionCall) : list field :=
  match c with
  | CallWithInterval _ => [FInterval]
  | CallWithMaxPoints _ => [FMaxPoints]
  | CallWithTemplate _ => [FTemplate]
  | CallWithAddr _ => [FListenAddr; FLinkAddr]
  | CallWithLinkAddr _ => [FLinkAddr]
  | CallWithTimeFormat _ => [FTimeFormat]
  | CallWithTheme _ => [FTheme]
  | CallWithBrowserOpen => [FAutoOpenBrowser]
  end.

(** ** Sequences of pulls and of events *)

(** A pull of one of the two viewers, answered on the writer [w]. *)
Inductive pull :=
  | PullGCNum (vr : GCNumViewer.t) (w : ResponseWriter)
  | PullStatic (vs : StaticViewer.t) (w : ResponseWriter).

Definition servePull `{Env} (p : pull) : M unit :=
  match p with
  | PullGCNum vr w => GCNumViewer_Serve vr w
  | PullStatic vs w => StaticViewer_Serve vs w
  end.

Fixpoint servePulls `{Env} (ps : list pull) : M unit :=
  match ps with
  | [] => mret tt
  | p :: ps' => servePull p;; servePulls ps'
  end.

(** [n] rounds of a dashboard at work on the scheduler [a]: a pull, then
    a firing of the ticker. *)
Fixpoint pullTickRounds (a : nat) (n : nat) : list event :=
  match n with
  | O => []
  | S n' => Pull a :: TickerFired a :: pullTickRounds a n'
  end.

(** ** Pulls that overlap *)

(** The argument of the store of [Tick]: the clock is read and the
    deadline computed first; the atomic store comes afterwards, and other
    goroutines may run in between. *)
Definition TickArg `{Env} (s : ptr) : M Z :=
  load s;;
  now ← timeNowUnix;
  itv ← Interval;
  mret (Go.add64 now (Go.mul64 (Go.int64_of_millis itv) 2)).

(** Events at the grain of the atomic operations: a pull on the scheduler
    [a] evaluates the argument of its store and waits; the pull that
    waits at place [j] performs its store; the ticker of [a] fires. *)
Inductive fineEvent :=
  | TickEval (a : nat)
  | TickStore (j : nat)
  | TickerFiredFine (a : nat).

(** The pulls that wait, each with its scheduler and the deadline it is
    about to store. *)
Definition waiting := list (nat * Z).

Definition fineStep `{Env} (e : fineEvent) (ws : waiting) : M waiting :=
  match e with
  | TickEval a => d ← TickArg (Some a); mret (ws ++ [(a, d)])
  | TickStore j =>
      match ws !! j with
      | Some (a, d) => storeLast (Some a) d;; mret (delete j ws)
      | None => mret ws
      end
  | TickerFiredFine a => pollingIter (Some a) TickerC;; mret ws
  end.

Fixpoint fineRun `{Env} (evs : list fineEvent) (ws : waiting) : M waiting :=
  match evs with
  | [] => mret ws
  | e :: evs' => ws' ← fineStep e ws; fineRun evs' ws'
  end.

(** ** Chart libraries to run the constructors with *)

(** A library whose templates always parse and execute, and one whose
    parser rejects every template. *)
Definition plainCharts : ChartLib :=
  {| templateParse := λ _, None;
     templateExecute := λ text _, inl text;
     chartID := λ _, "chart"%string |}.

Definition brokenTemplates : ChartLib :=
  {| templateParse := λ _, Some "unexpected EOF"%string;
     templateExecute := λ text _, inl text;
     chartID := λ _, "chart"%string |}.

(** * Properties *)

(** ** Machine arithmetic *)

Lemma wrap64_small (z : Z) : - 2 ^ 63 ≤ z < 2 ^ 63 → Go.wrap64 z = z.
Proof.
  intros Hz. unfold Go.wrap64.
  rewrite Z.mod_small by lia. lia.
Qed.

Lemma int64_of_millis_bounds (n : Z) :
  0 ≤ n → 0 ≤ Go.int64_of_millis n ∧ 1000 * Go.int64_of_millis n ≤ n.
Proof.
  intros Hn. unfold Go.int64_of_millis.
  pose proof (Z.quot_pos n 1000 Hn ltac:(lia)).
  pose proof (Z.mul_quot_le n 1000 Hn ltac:(lia)). lia.
Qed.

(** The deadline that [NewStatsMgr] and [Tick] compute, without overflow:
    the clock reading plus twice the whole seconds of the interval. *)
Lemma deadline_no_overflow (now itv : Z) :
  0 ≤ itv ≤ 2 ^ 53 → - 2 ^ 62 ≤ now ≤ 2 ^ 62 →
  Go.add64 now (Go.mul64 (Go.int64_of_millis itv) 2)
  = now + 2 * Go.int64_of_millis itv.
Proof.
  intros Hitv Hnow.
  destruct (int64_of_millis_bounds itv) as [H0 H1]; [lia|].
  unfold Go.add64, Go.mul64.
  rewrite (wrap64_small (_ * 2)) by lia.
  rewrite wrap64_small by lia. lia.
Qed.

Lemma int64_of_millis_whole (k : Z) : Go.int64_of_millis (1000 * k) = k.
Proof.
  unfold Go.int64_of_millis.
  rewrite Z.mul_comm. apply Z.quot_mul. lia.
Qed.

(** ** The monad *)

Ltac unfold_m :=
  unfold mbind, M_bind, mret, M_ret, get, modify, emit, panic in *.

Section Scheduler.

Context `{Env}.

(** *** The primitive operations on a scheduler *)

Lemma Tick_ok (g : G.t) (a : nat) (o : StatsMgr.t) :
  G.heap g !! a = Some o →
  let d := Go.add64 (wall (G.instant g))
             (Go.mul64
                (Go.int64_of_millis (config.Interval (G.defaultCfg g))) 2) in
  Tick (Some a) g
  = Ok tt (G.mk (G.defaultCfg g) (G.memstats g)
             (<[a := StatsMgr.set_last d o]> (G.heap g)) (G.i g)
             (S (G.instant g)) (G.trace g ++ [StoreLast a d])).
Proof.
  intros Ho d.
  unfold Tick, storeLast, load, timeNowUnix, Interval. unfold_m.
  cbn. rewrite Ho. cbn. rewrite Ho. reflexivity.
Qed.

Lemma Tick_nil (g : G.t) : Tick None g = Panic nilDeref.
Proof. reflexivity. Qed.

Lemma TimeUpdate_ok (g : G.t) (a : nat) (o : StatsMgr.t) :
  G.heap g !! a = Some o →
  TimeUpdate (Some a) g
  = Ok tt (G.mk (G.defaultCfg g) (G.memstats g)
             (<[a := StatsMgr.set_time (wall (G.instant g)) o]> (G.heap g))
             (G.i g) (S (G.instant g))
             (G.trace g ++ [StoreTime a (wall (G.instant g))])).
Proof.
  intros Ho.
  unfold TimeUpdate, storeTime, load, timeNowUnix. unfold_m.
  cbn. rewrite Ho. cbn. rewrite Ho. reflexivity.
Qed.

(** The turn of the loop when the deadline is ahead of the clock. *)
Lemma pollingIter_refresh (g : G.t) (a : nat) (o : StatsMgr.t) :
  G.heap g !! a = Some o →
  wall (G.instant g) < StatsMgr.last o →
  pollingIter (Some a) TickerC g
  = Ok true
      (G.mk (G.defaultCfg g)
         (runtimeStats (G.instant g + 2))
         (<[a := StatsMgr.set_time (wall (G.instant g + 1)) o]> (G.heap g))
         (G.i g) (G.instant g + 3)
         (G.trace g
          ++ [MuLock; StoreTime a (wall (G.instant g + 1)); ReadMemStats;
              MuUnlock])).
Proof.
  intros Ho Hlt.
  unfold pollingIter, GetTick, load, timeNowUnix. unfold_m.
  cbn. rewrite Ho. cbn.
  replace (StatsMgr.last o >? wall (G.instant g)) with true
    by (symmetry; apply Z.gtb_lt; lia).
  cbn. rewrite TimeUpdate_ok with (o := o) by exact Ho.
  unfold runtimeReadMemStats. cbn.
  replace (G.instant g + 1)%nat with (S (G.instant g)) by lia.
  replace (G.instant g + 2)%nat with (S (S (G.instant g))) by lia.
  replace (G.instant g + 3)%nat with (S (S (S (G.instant g)))) by lia.
  rewrite <- !app_assoc. reflexivity.
Qed.

(** The turn of the loop when the clock has reached the deadline. *)
Lemma pollingIter_skip (g : G.t) (a : nat) (o : StatsMgr.t) :
  G.heap g !! a = Some o →
  StatsMgr.last o ≤ wall (G.instant g) →
  pollingIter (Some a) TickerC g
  = Ok true (G.set_instant (S (G.instant g)) g).
Proof.
  intros Ho Hle.
  unfold pollingIter, GetTick, load, timeNowUnix. unfold_m.
  cbn. rewrite Ho. cbn.
  replace (StatsMgr.last o >? wall (G.instant g)) with false
    by (symmetry; rewrite Z.gtb_ltb; apply Z.ltb_ge; lia).
  reflexivity.
Qed.

End Scheduler.

Section Runs.

Context `{Env}.

Lemma Tick_dangling (g : G.t) (a : nat) :
  G.heap g !! a = None → Tick (Some a) g = Panic nilDeref.
Proof.
  intros Ho. unfold Tick, load. unfold_m. cbn. rewrite Ho. reflexivity.
Qed.

Lemma pollingIter_dangling (g : G.t) (a : nat) :
  G.heap g !! a = None → pollingIter (Some a) TickerC g = Panic nilDeref.
Proof.
  intros Ho. unfold pollingIter, GetTick, load. unfold_m. cbn.
  rewrite Ho. reflexivity.
Qed.

(** A turn of the loop either refreshes or skips, as the comparison of the
    deadline with the clock decides. *)
Lemma pollingIter_cases (g g' : G.t) (a : nat) (c : bool) :
  pollingIter (Some a) TickerC g = Ok c g' →
  ∃ o, G.heap g !! a = Some o ∧ c = true ∧
    ((wall (G.instant g) < StatsMgr.last o ∧
      g' = G.mk (G.defaultCfg g) (runtimeStats (G.instant g + 2))
             (<[a := StatsMgr.set_time (wall (G.instant g + 1)) o]>
                (G.heap g))
             (G.i g) (G.instant g + 3)
             (G.trace g
              ++ [MuLock; StoreTime a (wall (G.instant g + 1)); ReadMemStats;
                  MuUnlock]))
     ∨ (StatsMgr.last o ≤ wall (G.instant g) ∧
        g' = G.set_instant (S (G.instant g)) g)).
Proof.
  intros Hr. destruct (G.heap g !! a) as [o|] eqn:Ho.
  - exists o. destruct (Z.lt_ge_cases (wall (G.instant g)) (StatsMgr.last o))
      as [Hlt|Hge].
    + rewrite (pollingIter_refresh g a o Ho Hlt) in Hr.
      injection Hr as <- <-. auto.
    + rewrite (pollingIter_skip g a o Ho Hge) in Hr.
      injection Hr as <- <-. auto.
  - rewrite pollingIter_dangling in Hr by exact Ho. discriminate.
Qed.

Lemma step_TickerFired (a : nat) (g : G.t) :
  step (TickerFired a) g
  = match pollingIter (Some a) TickerC g with
    | Ok _ g' => Ok tt g'
    | Panic msg => Panic msg
    end.
Proof. reflexivity. Qed.

(** What an event leaves alone: the configuration, the size of the heap
    and, unless it is a pull on the scheduler [a], the deadline of [a];
    logical time never goes back. *)
Lemma step_frame (e : event) (g g' : G.t) :
  step e g = Ok tt g' →
  G.defaultCfg g' = G.defaultCfg g
  ∧ (G.instant g ≤ G.instant g')%nat
  ∧ ∀ a, e ≠ Pull a →
      StatsMgr.last <$> G.heap g' !! a = StatsMgr.last <$> G.heap g !! a.
Proof.
  intros Hs. destruct e as [b|b].
  - cbn in Hs. destruct (G.heap g !! b) as [o|] eqn:Ho.
    + rewrite (Tick_ok g b o Ho) in Hs. injection Hs as <-. cbn.
      split; [reflexivity|]. split; [lia|].
      intros a Ha. rewrite list_lookup_insert_ne by congruence. reflexivity.
    + rewrite Tick_dangling in Hs by exact Ho. discriminate.
  - rewrite step_TickerFired in Hs.
    destruct (pollingIter (Some b) TickerC g) as [c g1|] eqn:Hp;
      [|discriminate].
    injection Hs as <-.
    apply pollingIter_cases in Hp as (o & Ho & _ & [[_ ->]|[_ ->]]); cbn.
    + split; [reflexivity|]. split; [lia|].
      intros a _. destruct (decide (a = b)) as [->|Hne].
      * rewrite list_lookup_insert_eq by (eapply lookup_lt_Some; eauto).
        rewrite Ho. reflexivity.
      * rewrite list_lookup_insert_ne by congruence. reflexivity.
    + split; [reflexivity|]. split; [lia|]. reflexivity.
Qed.

Lemma run_frame (evs : list event) (g g' : G.t) :
  run evs g = Ok tt g' →
  G.defaultCfg g' = G.defaultCfg g
  ∧ (G.instant g ≤ G.instant g')%nat
  ∧ ∀ a, Forall (λ e, e ≠ Pull a) evs →
      StatsMgr.last <$> G.heap g' !! a = StatsMgr.last <$> G.heap g !! a.
Proof.
  revert g. induction evs as [|e evs IH]; intros g Hr; cbn in Hr.
  - injection Hr as <-. auto.
  - unfold_m. destruct (step e g) as [[] g1|] eqn:Hs; [|discriminate].
    apply step_frame in Hs as (Hc & Hi & Hl).
    apply IH in Hr as (Hc' & Hi' & Hl').
    split; [congruence|]. split; [lia|].
    intros a Ha. apply Forall_cons in Ha as [Hne Ha].
    rewrite Hl' by exact Ha. apply Hl. exact Hne.
Qed.

(** A run over schedulers that exist does not panic. *)
Lemma run_total (evs : list event) (g : G.t) :
  Forall (λ e, match e with
               | Pull a | TickerFired a => (a < length (G.heap g))%nat
               end) evs →
  ∃ g', run evs g = Ok tt g' ∧ length (G.heap g') = length (G.heap g).
Proof.
  revert g. induction evs as [|e evs IH]; intros g Hv; cbn.
  - eauto.
  - apply Forall_cons in Hv as [Ha Hv]. unfold_m.
    assert (∃ g1, step e g = Ok tt g1
                  ∧ length (G.heap g1) = length (G.heap g)) as (g1 & Hs & Hl).
    { destruct e as [a|a];
        destruct (lookup_lt_is_Some_2 _ _ Ha) as [o Ho].
      - cbn. rewrite (Tick_ok g a o Ho). eexists; split; [reflexivity|].
        cbn. apply length_insert.
      - rewrite step_TickerFired.
        destruct (Z.lt_ge_cases (wall (G.instant g)) (StatsMgr.last o)).
        + rewrite (pollingIter_refresh g a o Ho) by assumption.
          eexists; split; [reflexivity|]. cbn. apply length_insert.
        + rewrite (pollingIter_skip g a o Ho) by assumption.
          eexists; split; [reflexivity|]. reflexivity. }
    rewrite Hs. destruct (IH g1) as (g' & Hr & Hl').
    { rewrite Hl. exact Hv. }
    exists g'. split; [exact Hr|congruence].
Qed.

Lemma polling_cons (s : ptr) (w : wake) (ws : list wake) (g : G.t) :
  polling s (w :: ws) g
  = match pollingIter s w g with
    | Ok c g' => if c then polling s ws g' else Ok tt g'
    | Panic msg => Panic msg
    end.
Proof.
  cbn. unfold_m. destruct (pollingIter s w g) as [[] ?|]; reflexivity.
Qed.

(** Ticks that all find the clock at or past the deadline leave everything
    but the logical instant as it was. *)
Lemma polling_skips (n : nat) (g : G.t) (a : nat) (o : StatsMgr.t) :
  G.heap g !! a = Some o →
  (∀ j, (j < n)%nat → StatsMgr.last o ≤ wall (G.instant g + j)) →
  polling (Some a) (replicate n TickerC) g
  = Ok tt (G.set_instant (G.instant g + n) g).
Proof.
  revert g. induction n as [|n IH]; intros g Ho Hj.
  - cbn. unfold G.set_instant. rewrite Nat.add_0_r. destruct g; reflexivity.
  - change (replicate (S n) TickerC) with (TickerC :: replicate n TickerC).
    rewrite polling_cons, (pollingIter_skip g a o Ho).
    + rewrite IH.
      * cbn. unfold G.set_instant. cbn. do 2 f_equal. lia.
      * exact Ho.
      * intros j Hlt. specialize (Hj (S j) ltac:(lia)).
        replace (G.instant (G.set_instant (S (G.instant g)) g) + j)%nat
          with (G.instant g + S j)%nat by (cbn; lia).
        exact Hj.
    + specialize (Hj 0%nat ltac:(lia)). rewrite Nat.add_0_r in Hj. exact Hj.
Qed.

Lemma NewStatsMgr_ok (ctx : bool) (g : G.t) :
  0 < config.Interval (G.defaultCfg g) ≤ 2 ^ 40 →
  let d := Go.add64 (wall (G.instant g))
             (Go.mul64
                (Go.int64_of_millis (config.Interval (G.defaultCfg g))) 2) in
  NewStatsMgr ctx g
  = Ok (Some (length (G.heap g)))
      (G.mk (G.defaultCfg g) (G.memstats g)
         (G.heap g ++ [StatsMgr.mk d 0 ctx]) (G.i g) (S (G.instant g))
         (G.trace g)).
Proof.
  intros Hitv d.
  unfold NewStatsMgr, alloc, newTicker, timeNowUnix, Interval. unfold_m.
  cbn. unfold Go.mul64 at 1. rewrite wrap64_small by lia.
  replace (_ * 1000000 >? 0) with true
    by (symmetry; apply Z.gtb_lt; lia).
  reflexivity.
Qed.

(** However [NewStatsMgr] ends, when it returns a scheduler the deadline of
    that scheduler is the one computed from the clock and the interval. *)
Lemma NewStatsMgr_inv (ctx : bool) (g g1 : G.t) (a : nat) :
  NewStatsMgr ctx g = Ok (Some a) g1 →
  G.defaultCfg g1 = G.defaultCfg g
  ∧ StatsMgr.last <$> G.heap g1 !! a
    = Some (Go.add64 (wall (G.instant g))
              (Go.mul64
                 (Go.int64_of_millis (config.Interval (G.defaultCfg g))) 2)).
Proof.
  unfold NewStatsMgr, alloc, newTicker, timeNowUnix, Interval. unfold_m.
  cbn. destruct (_ >? 0); [|discriminate].
  intros Hr. injection Hr as <- <-. cbn. split; [reflexivity|].
  rewrite lookup_app_r by lia. rewrite Nat.sub_diag. reflexivity.
Qed.

Lemma Tick_inv (g g1 : G.t) (a : nat) :
  Tick (Some a) g = Ok tt g1 →
  G.defaultCfg g1 = G.defaultCfg g
  ∧ StatsMgr.last <$> G.heap g1 !! a
    = Some (Go.add64 (wall (G.instant g))
              (Go.mul64
                 (Go.int64_of_millis (config.Interval (G.defaultCfg g))) 2)).
Proof.
  intros Hr. destruct (G.heap g !! a) as [o|] eqn:Ho.
  - rewrite (Tick_ok g a o Ho) in Hr. injection Hr as <-. cbn.
    split; [reflexivity|].
    rewrite list_lookup_insert_eq by (eapply lookup_lt_Some; eauto).
    reflexivity.
  - rewrite Tick_dangling in Hr by exact Ho. discriminate.
Qed.

End Runs.

(** ** The activity deadline *)

Section Deadline.

Context `{Env}.

(** For an interval of whole seconds, [Tick] stores the clock reading plus
    twice the interval. *)
Lemma Tick_whole_seconds (g g' : G.t) (a : nat) (k : Z) :
  config.Interval (G.defaultCfg g) = 1000 * k → 0 ≤ k ≤ 2 ^ 40 →
  - 2 ^ 62 ≤ wall (G.instant g) ≤ 2 ^ 62 →
  Tick (Some a) g = Ok tt g' →
  ∃ d, StatsMgr.last <$> G.heap g' !! a = Some d
       ∧ 1000 * d
         = 1000 * wall (G.instant g) + 2 * config.Interval (G.defaultCfg g).
Proof.
  intros Hk Hr Hw Ht. apply Tick_inv in Ht as [_ Hl].
  eexists; split; [exact Hl|].
  rewrite deadline_no_overflow by lia.
  rewrite Hk, int64_of_millis_whole. lia.
Qed.

End Deadline.

(** C1 (the code departs from the claim).  A call of [Tick] at the clock
    reading 100 with the interval set to 1500 ms stores the deadline 102,
    while the clock reading plus twice the interval is 103 s: the interval
    is cut down to whole seconds before it is doubled. *)
Theorem Tick_truncates_before_doubling :
  @Tick (linearEnv 100 0 marshalBytes) (Some 0%nat) (scheduled 1500 0)
  = Ok tt
      (G.set_trace [StoreLast 0 102]
         (G.set_instant 1 (scheduled 1500 102)))
  ∧ 1000 * 102 ≠ 1000 * 100 + 2 * 1500.
Proof.
  split.
  - rewrite (Tick_ok (scheduled 1500 0) 0 (StatsMgr.mk 0 0 false) eq_refl).
    reflexivity.
  - lia.
Qed.

(** ** One firing of the ticker *)

(** C2 (amended).  At a firing of the ticker the loop compares the deadline
    with the clock strictly: when the clock reads less than the deadline
    the refresh is performed (the lock taken, the sample time stamped with
    the clock's next reading, the statistics read, the lock released);
    when the clock has reached or passed the deadline, nothing but the
    logical instant changes. *)
Theorem pollingIter_refreshes_iff_deadline_ahead
    `{Env} (g : G.t) (a : nat) (o : StatsMgr.t) :
  G.heap g !! a = Some o →
  (wall (G.instant g) < StatsMgr.last o →
   pollingIter (Some a) TickerC g
   = Ok true
       (G.mk (G.defaultCfg g)
          (runtimeStats (G.instant g + 2))
          (<[a := StatsMgr.set_time (wall (G.instant g + 1)) o]> (G.heap g))
          (G.i g) (G.instant g + 3)
          (G.trace g
           ++ [MuLock; StoreTime a (wall (G.instant g + 1)); ReadMemStats;
               MuUnlock])))
  ∧ (StatsMgr.last o ≤ wall (G.instant g) →
     pollingIter (Some a) TickerC g
     = Ok true (G.set_instant (S (G.instant g)) g)).
Proof.
  intros Ho. split; intros Hcmp.
  - apply pollingIter_refresh; assumption.
  - apply pollingIter_skip with (o := o); assumption.
Qed.

Lemma pollingIter_refreshes_iff_deadline_ahead_witness :
  let E := linearEnv 103 1 marshalBytes in
  let g := scheduled 2000 104 in
  (wall (G.instant g) < 104 →
   pollingIter (Some 0%nat) TickerC g
   = Ok true
       (G.mk (G.defaultCfg g) (runtimeStats 2)
          [StatsMgr.mk 104 (wall 1) false] (G.i g) 3
          [MuLock; StoreTime 0 (wall 1); ReadMemStats; MuUnlock]))
  ∧ (104 ≤ wall (G.instant g) →
     pollingIter (Some 0%nat) TickerC g
     = Ok true (G.set_instant 1 g)).
Proof.
  exact (@pollingIter_refreshes_iff_deadline_ahead
           (linearEnv 103 1 marshalBytes) (scheduled 2000 104) 0%nat
           (StatsMgr.mk 104 0 false) eq_refl).
Defined.

(** C2 as stated fails when the clock reads exactly the deadline: the
    claim asks for a refresh there, the loop skips it. *)
Lemma pollingIter_at_deadline_skips :
  let E := linearEnv 104 1 marshalBytes in
  let g := scheduled 2000 104 in
  wall (G.instant g) ≤ 104
  ∧ GetTick (Some 0%nat) g = Ok 104 g
  ∧ pollingIter (Some 0%nat) TickerC g = Ok true (G.set_instant 1 g)
  ∧ G.memstats (G.set_instant 1 g) = G.memstats g
  ∧ G.trace (G.set_instant 1 g) = [].
Proof.
  cbv zeta. split; [cbn; lia|]. split; [reflexivity|].
  split; [|split; reflexivity].
  rewrite (@pollingIter_skip (linearEnv 104 1 marshalBytes)
             (scheduled 2000 104) 0 (StatsMgr.mk 104 0 false) eq_refl).
  - reflexivity.
  - cbn. lia.
Qed.

(** ** Ticks after an activity *)

(** C3 (amended).  Let the interval be a whole number [k] of seconds and
    let [Tick] be called when the clock reads [T].  After any events that
    are not pulls on the same scheduler, a firing of the ticker that finds
    the clock below [T + 2 k] performs a refresh, and one that finds the
    clock at [T + 2 k], the end of the window, or later performs none: it
    changes nothing but the logical instant. *)
Theorem tick_after_pull_refreshes_iff_below_deadline
    `{Env} (g0 g1 g2 : G.t) (a : nat) (k : Z) (evs : list event) :
  config.Interval (G.defaultCfg g0) = 1000 * k → 0 < k ≤ 2 ^ 40 →
  - 2 ^ 62 ≤ wall (G.instant g0) ≤ 2 ^ 62 →
  Tick (Some a) g0 = Ok tt g1 →
  Forall (λ e, e ≠ Pull a) evs →
  run evs g1 = Ok tt g2 →
  ∃ o, G.heap g2 !! a = Some o
    ∧ (wall (G.instant g2) < wall (G.instant g0) + 2 * k →
       pollingIter (Some a) TickerC g2
       = Ok true
           (G.mk (G.defaultCfg g2)
              (runtimeStats (G.instant g2 + 2))
              (<[a := StatsMgr.set_time (wall (G.instant g2 + 1)) o]>
                 (G.heap g2))
              (G.i g2) (G.instant g2 + 3)
              (G.trace g2
               ++ [MuLock; StoreTime a (wall (G.instant g2 + 1));
                   ReadMemStats; MuUnlock])))
    ∧ (wall (G.instant g0) + 2 * k ≤ wall (G.instant g2) →
       pollingIter (Some a) TickerC g2
       = Ok true (G.set_instant (S (G.instant g2)) g2)).
Proof.
  intros Hk Hr Hw Ht Hq Hrun.
  apply Tick_inv in Ht as [_ Hl].
  apply run_frame in Hrun as (_ & _ & Hl2).
  specialize (Hl2 a Hq). rewrite Hl in Hl2.
  destruct (G.heap g2 !! a) as [o|] eqn:Ho; [|discriminate].
  injection Hl2 as Hlast.
  rewrite deadline_no_overflow, Hk, int64_of_millis_whole in Hlast by lia.
  exists o. split; [reflexivity|]. split; intros Hcmp.
  - apply pollingIter_refresh; [exact Ho|lia].
  - apply pollingIter_skip with (o := o); [exact Ho|lia].
Qed.

Lemma tick_after_pull_refreshes_iff_below_deadline_witness :
  (let E := linearEnv 100 1 marshalBytes in
   let g1 := G.set_trace [StoreLast 0 110]
               (G.set_instant 1 (scheduled 5000 110)) in
   let g2 := G.mk (G.defaultCfg g1) (runtimeStats 3)
               [StatsMgr.mk 110 102 false] 0 4
               [StoreLast 0 110; MuLock; StoreTime 0 102; ReadMemStats;
                MuUnlock] in
   run [Pull 0; TickerFired 0] (scheduled 5000 0) = Ok tt g2
   ∧ pollingIter (Some 0%nat) TickerC g2
     = Ok true
         (G.mk (G.defaultCfg g2) (runtimeStats 6)
            [StatsMgr.mk 110 105 false] 0 7
            (G.trace g2
             ++ [MuLock; StoreTime 0 105; ReadMemStats; MuUnlock])))
  ∧ (let E := scriptedEnv [100; 104] 104 marshalBytes in
     let g1 := G.set_trace [StoreLast 0 104]
                 (G.set_instant 1 (scheduled 2000 104)) in
     Tick (Some 0%nat) (scheduled 2000 0) = Ok tt g1
     ∧ pollingIter (Some 0%nat) TickerC g1 = Ok true (G.set_instant 2 g1)).
Proof.
  split.
  - intros E g1 g2.
    assert (Tick (Some 0%nat) (scheduled 5000 0) = Ok tt g1) as H1
      by (vm_compute; reflexivity).
    assert (run [TickerFired 0] g1 = Ok tt g2) as H2
      by (vm_compute; reflexivity).
    split; [vm_compute; reflexivity|].
    destruct (@tick_after_pull_refreshes_iff_below_deadline E
                (scheduled 5000 0) g1 g2 0%nat 5 [TickerFired 0])
      as (o & Ho & Hp & _).
    + reflexivity.
    + lia.
    + cbn. lia.
    + exact H1.
    + repeat constructor; discriminate.
    + exact H2.
    + injection Ho as <-. apply Hp. cbn. lia.
  - intros E g1.
    assert (Tick (Some 0%nat) (scheduled 2000 0) = Ok tt g1) as H1
      by (vm_compute; reflexivity).
    split; [exact H1|].
    destruct (@tick_after_pull_refreshes_iff_below_deadline E
                (scheduled 2000 0) g1 g1 0%nat 2 [])
      as (o & _ & _ & Hs).
    + reflexivity.
    + lia.
    + cbn. lia.
    + exact H1.
    + constructor.
    + reflexivity.
    + apply Hs. cbn. lia.
Defined.

(** C3 as stated fails at the right end of its window: with a 2000 ms
    interval a tick that finds the clock at [T + 4], the last second of
    the window, is skipped. *)
Lemma tick_at_window_end_skips :
  let E := scriptedEnv [100; 104] 104 marshalBytes in
  let g1 := G.set_trace [StoreLast 0 104]
              (G.set_instant 1 (scheduled 2000 104)) in
  Tick (Some 0%nat) (scheduled 2000 0) = Ok tt g1
  ∧ 100 < wall (G.instant g1) ≤ 100 + 2 * 2
  ∧ pollingIter (Some 0%nat) TickerC g1 = Ok true (G.set_instant 2 g1)
  ∧ G.trace (G.set_instant 2 g1) = G.trace g1
  ∧ G.memstats (G.set_instant 2 g1) = G.memstats g1.
Proof.
  cbv zeta. split; [vm_compute; reflexivity|].
  split; [cbn; lia|]. split; [vm_compute; reflexivity|].
  split; reflexivity.
Qed.

(** C4 (amended).  Let the deadline of a scheduler have been written last
    when the clock read [T], by [Tick] or by [NewStatsMgr], and let only
    events other than pulls on that scheduler have followed.  Ticks that
    all find the clock more than twice the interval after [T] leave the
    statistics, the sample time and the trace as they were: the state
    changes in its logical instant only. *)
Theorem idle_ticks_change_nothing
    `{Env} (ctx : bool) (g0 g1 g2 : G.t) (a : nat) (evs : list event)
    (n : nat) :
  0 < config.Interval (G.defaultCfg g0) ≤ 2 ^ 53 →
  - 2 ^ 62 ≤ wall (G.instant g0) ≤ 2 ^ 62 →
  Tick (Some a) g0 = Ok tt g1 ∨ NewStatsMgr ctx g0 = Ok (Some a) g1 →
  Forall (λ e, e ≠ Pull a) evs →
  run evs g1 = Ok tt g2 →
  (∀ j, (j < n)%nat →
     1000 * wall (G.instant g0) + 2 * config.Interval (G.defaultCfg g0)
     < 1000 * wall (G.instant g2 + j)) →
  polling (Some a) (replicate n TickerC) g2
  = Ok tt (G.set_instant (G.instant g2 + n) g2).
Proof.
  intros Hitv Hw Hset Hq Hrun Hidle.
  assert (StatsMgr.last <$> G.heap g1 !! a
          = Some (Go.add64 (wall (G.instant g0))
                    (Go.mul64
                       (Go.int64_of_millis
                          (config.Interval (G.defaultCfg g0))) 2))) as Hl.
  { destruct Hset as [Ht|Hn].
    - apply Tick_inv in Ht as [_ Hl]. exact Hl.
    - apply NewStatsMgr_inv in Hn as [_ Hl]. exact Hl. }
  apply run_frame in Hrun as (_ & _ & Hl2).
  specialize (Hl2 a Hq). rewrite Hl in Hl2.
  destruct (G.heap g2 !! a) as [o|] eqn:Ho; [|discriminate].
  injection Hl2 as Hlast.
  rewrite deadline_no_overflow in Hlast by lia.
  destruct (int64_of_millis_bounds (config.Interval (G.defaultCfg g0)))
    as [_ Hq1]; [lia|].
  apply polling_skips with (o := o); [exact Ho|].
  intros j Hj. specialize (Hidle j Hj). lia.
Qed.

Lemma idle_ticks_change_nothing_witness :
  let E := linearEnv 100 2 marshalBytes in
  ∃ g2,
    run [Pull 0; TickerFired 0] (scheduled 2000 0) = Ok tt g2
    ∧ polling (Some 0%nat) (replicate 3 TickerC) g2
      = Ok tt (G.set_instant (G.instant g2 + 3) g2).
Proof.
  intros E.
  pose (g1 := G.set_trace [StoreLast 0 104]
                (G.set_instant 1 (scheduled 2000 104))).
  pose (g2 := G.mk (G.defaultCfg g1) (runtimeStats 3)
                [StatsMgr.mk 104 104 false] 0 4
                [StoreLast 0 104; MuLock; StoreTime 0 104; ReadMemStats;
                 MuUnlock]).
  exists g2. split; [vm_compute; reflexivity|].
  apply (@idle_ticks_change_nothing E false (scheduled 2000 0) g1 g2 0%nat
           [TickerFired 0] 3).
  - cbn. lia.
  - cbn. lia.
  - left. vm_compute. reflexivity.
  - repeat constructor; discriminate.
  - vm_compute. reflexivity.
  - intros j Hj. cbn. lia.
Defined.

(** C4 as stated fails right after start-up: no pull has ever been made,
    yet the first tick refreshes, because [NewStatsMgr] itself sets a
    deadline ahead of the clock. *)
Lemma refresh_after_startup_without_pull :
  let E := linearEnv 100 1 marshalBytes in
  let g1 := G.set_instant 1 (scheduled 2000 104) in
  let g2 := G.mk (G.defaultCfg g1) (runtimeStats 3)
              [StatsMgr.mk 104 102 false] 0 4
              [MuLock; StoreTime 0 102; ReadMemStats; MuUnlock] in
  NewStatsMgr false (configured 2000) = Ok (Some 0%nat) g1
  ∧ G.trace g1 = []
  ∧ polling (Some 0%nat) [TickerC] g1 = Ok tt g2
  ∧ G.memstats g2 ≠ G.memstats g1.
Proof.
  cbv zeta. split; [vm_compute; reflexivity|]. split; [reflexivity|].
  split; [vm_compute; reflexivity|]. discriminate.
Qed.

(** ** The handlers *)

Section Handlers.

Context `{Env}.

Lemma GCNumViewer_Serve_ok (vr : GCNumViewer.t) (w : ResponseWriter)
    (g : G.t) (a : nat) (o : StatsMgr.t) :
  GCNumViewer.smgr vr = Some a → G.heap g !! a = Some o →
  let d := Go.add64 (wall (G.instant g))
             (Go.mul64
                (Go.int64_of_millis (config.Interval (G.defaultCfg g))) 2) in
  let metrics :=
    {| Metrics.Values := [MemStats.NumGC (G.memstats g)];
       Metrics.Time :=
         formatUnix (StatsMgr.time o)
           (config.TimeFormat (G.defaultCfg g)) |} in
  GCNumViewer_Serve vr w g
  = Ok tt
      (G.mk (G.defaultCfg g) (G.memstats g)
         (<[a := StatsMgr.set_last d o]> (G.heap g)) (G.i g)
         (S (G.instant g))
         (G.trace g
          ++ [StoreLast a d; MuRLock; MuRUnlock;
              WriteBody w (jsonMarshal metrics).1])).
Proof.
  intros Hs Ho d metrics. unfold GCNumViewer_Serve. rewrite Hs.
  unfold mbind at 1, M_bind at 1. rewrite (Tick_ok g a o Ho).
  unfold GetTime, load, TimeFormat. unfold_m. cbn.
  rewrite list_lookup_insert_eq by (eapply lookup_lt_Some; eauto). cbn.
  fold d. fold metrics. destruct (jsonMarshal metrics) as [bs e].
  unfold_m. cbn. rewrite <- !app_assoc. reflexivity.
Qed.

Lemma StaticViewer_Serve_ok (vs : StaticViewer.t) (w : ResponseWriter)
    (g : G.t) (a : nat) (o : StatsMgr.t) :
  StaticViewer.smgr vs = Some a → G.heap g !! a = Some o →
  let d := Go.add64 (wall (G.instant g))
             (Go.mul64
                (Go.int64_of_millis (config.Interval (G.defaultCfg g))) 2) in
  let metrics :=
    {| Metrics.Values := [Go.rem64 (G.i g) 10];
       Metrics.Time :=
         formatUnix (StatsMgr.time o)
           (config.TimeFormat (G.defaultCfg g)) |} in
  StaticViewer_Serve vs w g
  = Ok tt
      (G.mk (G.defaultCfg g) (G.memstats g)
         (<[a := StatsMgr.set_last d o]> (G.heap g))
         (Go.add64 (G.i g) 1) (S (G.instant g))
         (G.trace g ++ [StoreLast a d; WriteBody w (jsonMarshal metrics).1])).
Proof.
  intros Hs Ho d metrics. unfold StaticViewer_Serve. rewrite Hs.
  unfold mbind at 1, M_bind at 1. rewrite (Tick_ok g a o Ho).
  unfold GetTime, load, TimeFormat. unfold_m. cbn.
  rewrite list_lookup_insert_eq by (eapply lookup_lt_Some; eauto). cbn.
  fold d. fold metrics. destruct (jsonMarshal metrics) as [bs e].
  unfold_m. cbn. rewrite <- !app_assoc. reflexivity.
Qed.

(** A handler called through a nil scheduler panics before it serves. *)
Lemma StaticViewer_Serve_unbound (vs : StaticViewer.t) (w : ResponseWriter)
    (g : G.t) :
  StaticViewer.smgr vs = None → StaticViewer_Serve vs w g = Panic nilDeref.
Proof. intros Hs. unfold StaticViewer_Serve. rewrite Hs. reflexivity. Qed.

Lemma serveN_S (vs : StaticViewer.t) (w : ResponseWriter) (n : nat)
    (g : G.t) :
  serveN vs w (S n) g
  = match StaticViewer_Serve vs w g with
    | Ok _ g' => serveN vs (S w) n g'
    | Panic msg => Panic msg
    end.
Proof. reflexivity. Qed.

(** [n] pulls in a row move the counter from [i] to [i + n] and leave the
    configuration and the sample time alone. *)
Lemma serveN_counter (vs : StaticViewer.t) (a : nat) (n : nat) :
  StaticViewer.smgr vs = Some a →
  ∀ (w : ResponseWriter) (g : G.t) (o : StatsMgr.t),
    G.heap g !! a = Some o →
    0 ≤ G.i g → G.i g + Z.of_nat n ≤ 2 ^ 63 - 1 →
    ∃ g1 o1,
      serveN vs w n g = Ok tt g1
      ∧ G.i g1 = G.i g + Z.of_nat n
      ∧ G.defaultCfg g1 = G.defaultCfg g
      ∧ G.heap g1 !! a = Some o1
      ∧ StatsMgr.time o1 = StatsMgr.time o.
Proof.
  intros Hs. induction n as [|n IH]; intros w g o Ho Hi Hn.
  - exists g, o. cbn. repeat split; try reflexivity; [lia|exact Ho].
  - rewrite serveN_S, (StaticViewer_Serve_ok vs w g a o Hs Ho).
    assert (Go.add64 (G.i g) 1 = G.i g + 1) as Hadd
      by (unfold Go.add64; rewrite wrap64_small by lia; reflexivity).
    match goal with
    | |- ∃ _ _, serveN _ _ _ ?g' = _ ∧ _ =>
        destruct (IH (S w) g'
                    (StatsMgr.set_last
                       (Go.add64 (wall (G.instant g))
                          (Go.mul64
                             (Go.int64_of_millis
                                (config.Interval (G.defaultCfg g))) 2)) o))
          as (g1 & o1 & Hr & Hi1 & Hc1 & Ho1 & Ht1)
    end.
    + cbn. apply list_lookup_insert_eq. eapply lookup_lt_Some; eauto.
    + cbn. lia.
    + cbn. lia.
    + exists g1, o1. split; [exact Hr|]. cbn in Hi1, Hc1, Ht1.
      repeat split; [lia|exact Hc1|exact Ho1|exact Ht1].
Qed.

End Handlers.

(** C5.  Starting from the counter [i = 0], after [n] pulls of the static
    viewer the counter is [n], and the next pull, the call number
    [n + 1], steps the counter to [n + 1] and writes the marshalling of a
    data point whose only value is [n mod 10]. *)
Theorem StaticViewer_Serve_cycle
    `{Env} (vs : StaticViewer.t) (a : nat) (o : StatsMgr.t) (g : G.t)
    (w : ResponseWriter) (n : nat) :
  StaticViewer.smgr vs = Some a → G.heap g !! a = Some o →
  G.i g = 0 → Z.of_nat n < 2 ^ 63 - 1 →
  ∃ g1 g2,
    serveN vs w n g = Ok tt g1
    ∧ G.i g1 = Z.of_nat n
    ∧ StaticViewer_Serve vs (w + n)%nat g1 = Ok tt g2
    ∧ G.i g2 = Z.of_nat n + 1
    ∧ last (G.trace g2)
      = Some (WriteBody (w + n)%nat
                (jsonMarshal
                   {| Metrics.Values := [Z.of_nat n mod 10];
                      Metrics.Time :=
                        formatUnix (StatsMgr.time o)
                          (config.TimeFormat (G.defaultCfg g)) |}).1).
Proof.
  intros Hs Ho Hi Hn.
  destruct (serveN_counter vs a n Hs w g o Ho)
    as (g1 & o1 & Hr & Hi1 & Hc1 & Ho1 & Ht1); [lia|lia|].
  rewrite Hi in Hi1. cbn in Hi1.
  eexists g1, _. split; [exact Hr|]. split; [exact Hi1|].
  split; [apply (StaticViewer_Serve_ok vs _ g1 a o1 Hs Ho1)|].
  cbn. rewrite Hi1, Hc1, Ht1. split.
  - unfold Go.add64. rewrite wrap64_small by lia. reflexivity.
  - rewrite last_app. cbn. unfold Go.rem64.
    rewrite Z.rem_mod_nonneg by lia. reflexivity.
Qed.

Lemma StaticViewer_Serve_cycle_witness :
  let E := linearEnv 100 1 marshalBytes in
  let vs := StaticViewer.mk (Some 0%nat)
              (mkLine VStatic "Static count" "Num" ["Count"%string]
                 ThemeMacarons) in
  ∃ g1 g2,
    serveN vs 0%nat 12 (scheduled 2000 0) = Ok tt g1
    ∧ G.i g1 = 12
    ∧ StaticViewer_Serve vs 12%nat g1 = Ok tt g2
    ∧ G.i g2 = 13
    ∧ last (G.trace g2)
      = Some (WriteBody 12%nat
                (marshalBytes
                   {| Metrics.Values := [2];
                      Metrics.Time := DefaultTimeFormat |}).1).
Proof.
  intros E vs.
  apply (@StaticViewer_Serve_cycle E vs 0%nat (StatsMgr.mk 0 0 false)
           (scheduled 2000 0) 0%nat 12);
    [reflexivity|reflexivity|reflexivity|lia].
Defined.

(** C7.  Whatever error [json.Marshal] reports, a handler whose scheduler is
    set returns normally, ends up in the very state it reaches when no
    error is reported, and writes the bytes that [json.Marshal] handed
    back. *)
Theorem Serve_discards_marshal_error
    (clock : nat → Z) (stats : nat → MemStats.t)
    (format : Z → string → string)
    (bytes : Metrics.t → list byte) (err : Metrics.t → option string)
    (vr : GCNumViewer.t) (vs : StaticViewer.t) (w : ResponseWriter)
    (g : G.t) (a b : nat) (o p : StatsMgr.t) :
  GCNumViewer.smgr vr = Some a → G.heap g !! a = Some o →
  StaticViewer.smgr vs = Some b → G.heap g !! b = Some p →
  let failing := Build_Env clock stats format (λ m, (bytes m, err m)) in
  let silent := Build_Env clock stats format (λ m, (bytes m, None)) in
  (∃ g', @GCNumViewer_Serve failing vr w g = Ok tt g'
         ∧ @GCNumViewer_Serve silent vr w g = Ok tt g'
         ∧ last (G.trace g')
           = Some (WriteBody w
                     (bytes
                        {| Metrics.Values := [MemStats.NumGC (G.memstats g)];
                           Metrics.Time :=
                             format (StatsMgr.time o)
                               (config.TimeFormat (G.defaultCfg g)) |})))
  ∧ (∃ g', @StaticViewer_Serve failing vs w g = Ok tt g'
           ∧ @StaticViewer_Serve silent vs w g = Ok tt g'
           ∧ last (G.trace g')
             = Some (WriteBody w
                       (bytes
                          {| Metrics.Values := [Go.rem64 (G.i g) 10];
                             Metrics.Time :=
                               format (StatsMgr.time p)
                                 (config.TimeFormat (G.defaultCfg g)) |}))).
Proof.
  intros Hr Ho Hs Hp failing silent. split.
  - eexists. split; [apply (@GCNumViewer_Serve_ok failing vr w g a o Hr Ho)|].
    split; [apply (@GCNumViewer_Serve_ok silent vr w g a o Hr Ho)|].
    cbn. rewrite last_app. reflexivity.
  - eexists. split; [apply (@StaticViewer_Serve_ok failing vs w g b p Hs Hp)|].
    split; [apply (@StaticViewer_Serve_ok silent vs w g b p Hs Hp)|].
    cbn. rewrite last_app. reflexivity.
Qed.

Lemma Serve_discards_marshal_error_witness :
  let failing := linearEnv 100 1 marshalFails in
  let vr := GCNumViewer.mk (Some 0%nat)
              (mkLine VGCNum "GC Number" "Num" ["GcNum"%string]
                 ThemeMacarons) in
  let vs := StaticViewer.mk (Some 0%nat)
              (mkLine VStatic "Static count" "Num" ["Count"%string]
                 ThemeMacarons) in
  (∃ g', @GCNumViewer_Serve failing vr 7%nat (scheduled 2000 0) = Ok tt g'
         ∧ last (G.trace g') = Some (WriteBody 7%nat []))
  ∧ (∃ g', @StaticViewer_Serve failing vs 7%nat (scheduled 2000 0) = Ok tt g'
           ∧ last (G.trace g') = Some (WriteBody 7%nat [])).
Proof.
  intros failing vr vs.
  destruct (Serve_discards_marshal_error
              (λ n, 100 + 1 * Z.of_nat n) (λ n, MemStats.mk (Z.of_nat n) 0 0)
              (λ sec layout, layout) (λ m, [])
              (λ m, Some "json: unsupported value"%string)
              vr vs 7%nat (scheduled 2000 0) 0%nat 0%nat
              (StatsMgr.mk 0 0 false) (StatsMgr.mk 0 0 false)
              eq_refl eq_refl eq_refl eq_refl)
    as [(g1 & H1 & _ & L1) (g2 & H2 & _ & L2)].
  split; [exists g1|exists g2]; split; assumption.
Defined.

(** ** The sample time *)

Section SampleTime.

Context `{Env}.

Lemma stamps_app (a : nat) (l1 l2 : list action) :
  stamps a (l1 ++ l2) = stamps a l1 ++ stamps a l2.
Proof.
  induction l1 as [|x l1 IH]; [reflexivity|].
  destruct x; cbn; try exact IH.
  destruct (decide (_ = a)); cbn; rewrite IH; reflexivity.
Qed.

Lemma wall_mono (n m : nat) :
  (∀ k, wall k ≤ wall (S k)) → (n ≤ m)%nat → wall n ≤ wall m.
Proof.
  intros Hw Hnm. induction Hnm as [|m _ IH]; [lia|].
  specialize (Hw m). lia.
Qed.

(** What one event adds to the trace: the stamps it stores lie between
    the clock readings at its start and at its end, there is at most one,
    and it is the sample time the scheduler holds afterwards. *)
Lemma step_stamps (e : event) (g g' : G.t) (a : nat) :
  (∀ k, wall k ≤ wall (S k)) →
  step e g = Ok tt g' →
  ∃ new,
    G.trace g' = G.trace g ++ new
    ∧ (G.instant g ≤ G.instant g')%nat
    ∧ (stamps a new = []
       ∧ StatsMgr.time <$> G.heap g' !! a = StatsMgr.time <$> G.heap g !! a
       ∨ ∃ v, stamps a new = [v]
              ∧ wall (G.instant g) ≤ v ≤ wall (G.instant g')
              ∧ StatsMgr.time <$> G.heap g' !! a
                = (λ _, v) <$> G.heap g !! a).
Proof.
  intros Hw Hs. destruct e as [b|b].
  - cbn in Hs. destruct (G.heap g !! b) as [o|] eqn:Ho.
    + rewrite (Tick_ok g b o Ho) in Hs. injection Hs as <-. cbn.
      eexists. split; [reflexivity|]. split; [lia|]. left.
      split; [reflexivity|]. destruct (decide (a = b)) as [->|Hne].
      * rewrite list_lookup_insert_eq by (eapply lookup_lt_Some; eauto).
        rewrite Ho. reflexivity.
      * rewrite list_lookup_insert_ne by congruence. reflexivity.
    + rewrite Tick_dangling in Hs by exact Ho. discriminate.
  - rewrite step_TickerFired in Hs.
    destruct (pollingIter (Some b) TickerC g) as [c g1|] eqn:Hp;
      [|discriminate].
    injection Hs as <-.
    apply pollingIter_cases in Hp as (o & Ho & _ & [[_ ->]|[_ ->]]); cbn.
    + eexists. split; [reflexivity|]. split; [lia|].
      destruct (decide (a = b)) as [->|Hne].
      * right. exists (wall (G.instant g + 1)). cbn.
        rewrite decide_True by reflexivity. split; [reflexivity|].
        split; [split; apply wall_mono; auto; lia|].
        rewrite list_lookup_insert_eq by (eapply lookup_lt_Some; eauto).
        rewrite Ho. reflexivity.
      * left. cbn. rewrite decide_False by congruence.
        split; [reflexivity|].
        rewrite list_lookup_insert_ne by congruence. reflexivity.
    + exists []. rewrite app_nil_r. split; [reflexivity|]. split; [lia|].
      left. split; reflexivity.
Qed.

Lemma run_stamps (evs : list event) (g g' : G.t) (a : nat) :
  (∀ k, wall k ≤ wall (S k)) →
  run evs g = Ok tt g' →
  ∃ new,
    G.trace g' = G.trace g ++ new
    ∧ (G.instant g ≤ G.instant g')%nat
    ∧ StronglySorted Z.le (stamps a new)
    ∧ Forall (λ v, wall (G.instant g) ≤ v ≤ wall (G.instant g'))
        (stamps a new)
    ∧ StatsMgr.time <$> G.heap g' !! a
      = (λ o, default (StatsMgr.time o) (last (stamps a new)))
          <$> G.heap g !! a.
Proof.
  intros Hw. revert g. induction evs as [|e evs IH]; intros g Hr.
  - cbn in Hr. injection Hr as <-. exists []. rewrite app_nil_r. cbn.
    repeat split; constructor.
  - cbn in Hr. unfold_m.
    destruct (step e g) as [[] g1|] eqn:Hs; [|discriminate].
    apply (step_stamps e g g1 a Hw) in Hs as (n1 & Ht1 & Hi1 & Hst).
    apply IH in Hr as (n2 & Ht2 & Hi2 & Hso & Hbd & Htm).
    exists (n1 ++ n2). rewrite Ht2, Ht1, app_assoc, stamps_app.
    split; [reflexivity|]. split; [lia|].
    assert (Forall (λ v, wall (G.instant g) ≤ v ≤ wall (G.instant g'))
              (stamps a n2)) as Hbd'.
    { eapply Forall_impl; [exact Hbd|]. cbn. intros v [Hlo Hhi].
      split; [|exact Hhi].
      pose proof (wall_mono _ _ Hw Hi1). lia. }
    destruct Hst as [[-> Hsame]|(v & -> & Hv & Hset)]; cbn.
    + split; [exact Hso|]. split; [exact Hbd'|].
      rewrite Htm. destruct (G.heap g1 !! a) as [o1|] eqn:Ho1;
        destruct (G.heap g !! a) as [o|] eqn:Ho; try discriminate;
        cbn in *; [|reflexivity].
      injection Hsame as ->. reflexivity.
    + split.
      { constructor; [exact Hso|].
        eapply Forall_impl; [exact Hbd|]. cbn. intros x [Hlo _]. lia. }
      split.
      { constructor; [|exact Hbd'].
        pose proof (wall_mono _ _ Hw Hi2). lia. }
      rewrite Htm. destruct (G.heap g1 !! a) as [o1|] eqn:Ho1;
        destruct (G.heap g !! a) as [o|] eqn:Ho; try discriminate;
        cbn in *; [|reflexivity].
      injection Hset as ->.
      destruct (stamps a n2) as [|x l]; [reflexivity|].
      change (last (v :: x :: l)) with (last (x :: l)).
      destruct (last (x :: l)) eqn:Hlast; [reflexivity|].
      apply last_None in Hlast. discriminate.
Qed.

End SampleTime.

(** C6.  Under a clock that never goes back, the sample times that the
    refreshes of a scheduler store during a run are in non-decreasing
    order, and the sample time the scheduler holds after the run is the
    last of them (its earlier one if no refresh took place). *)
Theorem sample_times_non_decreasing
    `{Env} (evs : list event) (g g' : G.t) (a : nat) :
  (∀ k, wall k ≤ wall (S k)) →
  run evs g = Ok tt g' →
  ∃ new,
    G.trace g' = G.trace g ++ new
    ∧ Sorted Z.le (stamps a new)
    ∧ StatsMgr.time <$> G.heap g' !! a
      = (λ o, default (StatsMgr.time o) (last (stamps a new)))
          <$> G.heap g !! a.
Proof.
  intros Hw Hr.
  destruct (run_stamps evs g g' a Hw Hr) as (new & Ht & _ & Hso & _ & Htm).
  exists new. split; [exact Ht|]. split; [|exact Htm].
  apply StronglySorted_Sorted. exact Hso.
Qed.

Lemma sample_times_non_decreasing_witness :
  let E := linearEnv 100 1 marshalBytes in
  let g := scheduled 5000 0 in
  let g' := G.mk (G.defaultCfg g) (runtimeStats 6)
              [StatsMgr.mk 110 105 false] 0 7
              [StoreLast 0 110;
               MuLock; StoreTime 0 102; ReadMemStats; MuUnlock;
               MuLock; StoreTime 0 105; ReadMemStats; MuUnlock] in
  ∃ new,
    G.trace g' = G.trace g ++ new
    ∧ Sorted Z.le (stamps 0 new)
    ∧ StatsMgr.time <$> G.heap g' !! 0%nat
      = (λ o, default (StatsMgr.time o) (last (stamps 0 new)))
          <$> G.heap g !! 0%nat.
Proof.
  intros E g g'.
  apply (@sample_times_non_decreasing E
           [Pull 0; TickerFired 0; TickerFired 0] g g' 0%nat).
  - intros k. cbn. lia.
  - vm_compute. reflexivity.
Defined.

(** ** The scheduler at start-up *)

(** For an interval of whole seconds, [NewStatsMgr] sets the deadline to
    the clock reading plus twice the interval, so the ticks that find the
    clock below it refresh although nobody has pulled yet. *)
Lemma NewStatsMgr_whole_seconds
    `{Env} (ctx : bool) (g g1 : G.t) (a : nat) (k : Z) :
  config.Interval (G.defaultCfg g) = 1000 * k → 0 < k ≤ 2 ^ 40 →
  - 2 ^ 62 ≤ wall (G.instant g) ≤ 2 ^ 62 →
  NewStatsMgr ctx g = Ok (Some a) g1 →
  ∃ o, G.heap g1 !! a = Some o
       ∧ StatsMgr.last o = wall (G.instant g) + 2 * k
       ∧ (wall (G.instant g1) < wall (G.instant g) + 2 * k →
          ∃ g2, pollingIter (Some a) TickerC g1 = Ok true g2
                ∧ G.memstats g2 = runtimeStats (G.instant g1 + 2)).
Proof.
  intros Hk Hr Hw Hn. apply NewStatsMgr_inv in Hn as [_ Hl].
  destruct (G.heap g1 !! a) as [o|] eqn:Ho; [|discriminate].
  injection Hl as Hlast.
  rewrite deadline_no_overflow, Hk, int64_of_millis_whole in Hlast by lia.
  exists o. split; [reflexivity|]. split; [exact Hlast|].
  intros Hlt. eexists. split; [apply pollingIter_refresh; [exact Ho|lia]|].
  reflexivity.
Qed.

(** C9 (the code departs from the claim).  With the interval set to 500 ms
    and the clock at 100, [NewStatsMgr] sets the deadline to 100, the
    clock reading itself, not to 100 + 2 × 0.5 = 101; the ticks that fire
    half a second and a second later find the deadline already reached
    and sample nothing. *)
Theorem NewStatsMgr_subsecond_deadline_expired :
  let E := scriptedEnv [100; 100; 101] 101 marshalBytes in
  let g1 := G.set_instant 1 (scheduled 500 100) in
  NewStatsMgr false (configured 500) = Ok (Some 0%nat) g1
  ∧ 1000 * 100 ≠ 1000 * 100 + 2 * 500
  ∧ polling (Some 0%nat) [TickerC; TickerC] g1 = Ok tt (G.set_instant 3 g1)
  ∧ G.memstats (G.set_instant 3 g1) = G.memstats (configured 500)
  ∧ G.trace (G.set_instant 3 g1) = [].
Proof.
  cbv zeta. split; [vm_compute; reflexivity|]. split; [lia|].
  split; [vm_compute; reflexivity|]. split; reflexivity.
Qed.

(** ** The collection of viewers *)

(** C8.  [Register] puts the new viewers after the ones already there, in
    the order given: the length grows by their number, what was there
    stays where it was, the new ones follow, and for every name the
    collection holds as many viewers afterwards as it held before plus as
    many as were registered under it, none being dropped as a duplicate. *)
Theorem Register_appends (v : Viewers) (views : list Viewer) :
  length (Register v views) = (length v + length views)%nat
  ∧ (∀ k x, v !! k = Some x → Register v views !! k = Some x)
  ∧ (∀ k, Register v views !! (length v + k)%nat = views !! k)
  ∧ (∀ name : string,
       length (filter (λ x, viewerName x = name) (Register v views))
       = (length (filter (λ x, viewerName x = name) v)
          + length (filter (λ x, viewerName x = name) views))%nat).
Proof.
  unfold Register, Viewers in *. split; [apply length_app|]. split; [|split].
  - intros k x Hk. apply lookup_app_l_Some. exact Hk.
  - intros k. rewrite lookup_app_r by lia. f_equal. lia.
  - intros name. rewrite filter_app, length_app. reflexivity.
Qed.

(** Two viewers of the same name, registered one after the other on the
    empty collection, are both in it. *)
Example Register_same_name `{Env} (x y : StaticViewer.t) :
  Register (Register NewEmptyViewers [asViewer x]) [asViewer y]
  = [asViewer x; asViewer y]
  ∧ viewerName (asViewer x) = viewerName (asViewer y).
Proof. split; reflexivity. Qed.

(** ** The address options *)

(** C10.  [WithLinkAddr] assigns the link address and nothing else;
    [WithAddr] assigns the listening address and the link address, both to
    its argument, and nothing else.  [SetConfiguration] with either option
    changes the configuration in this way and leaves the rest of the
    program state alone. *)
Theorem WithLinkAddr_WithAddr_frame (addr : string) (c : config.t) (g : G.t) :
  WithLinkAddr addr c
  = config.mk (config.AutoOpenBrowser c) (config.Interval c)
      (config.MaxPoints c) (config.Template c) (config.ListenAddr c) addr
      (config.TimeFormat c) (config.Theme c)
  ∧ WithAddr addr c
    = config.mk (config.AutoOpenBrowser c) (config.Interval c)
        (config.MaxPoints c) (config.Template c) addr addr
        (config.TimeFormat c) (config.Theme c)
  ∧ SetConfiguration [WithLinkAddr addr] g
    = Ok tt (G.mk (WithLinkAddr addr (G.defaultCfg g)) (G.memstats g)
               (G.heap g) (G.i g) (G.instant g) (G.trace g))
  ∧ SetConfiguration [WithAddr addr] g
    = Ok tt (G.mk (WithAddr addr (G.defaultCfg g)) (G.memstats g)
               (G.heap g) (G.i g) (G.instant g) (G.trace g)).
Proof. repeat split. Qed.

(** ** Intervals below one second *)

Section SubSecond.

Context `{Env}.

(** With an interval below one second the deadline a pull stores is the
    clock reading itself, so under a clock that never goes back every
    deadline of the heap stays at or behind the clock, whatever the
    events, and no tick ever samples. *)
Lemma subsecond_interval_never_samples (evs : list event) (g g' : G.t) :
  0 ≤ config.Interval (G.defaultCfg g) < 1000 →
  (∀ k, wall k ≤ wall (S k)) →
  (∀ k, - 2 ^ 62 ≤ wall k ≤ 2 ^ 62) →
  (∀ a o, G.heap g !! a = Some o → StatsMgr.last o ≤ wall (G.instant g)) →
  run evs g = Ok tt g' →
  G.memstats g' = G.memstats g
  ∧ ReadMemStats ∉ drop (length (G.trace g)) (G.trace g').
Proof.
  intros Hitv Hw Hb. revert g Hitv.
  induction evs as [|e evs IH]; intros g Hitv Hinv Hr.
  - cbn in Hr. injection Hr as <-. rewrite drop_all.
    split; [reflexivity|apply not_elem_of_nil].
  - cbn in Hr. unfold_m.
    destruct (step e g) as [[] g1|] eqn:Hs; [|discriminate].
    assert (G.defaultCfg g1 = G.defaultCfg g
            ∧ G.memstats g1 = G.memstats g
            ∧ (∃ new, G.trace g1 = G.trace g ++ new ∧ ReadMemStats ∉ new)
            ∧ ∀ a o, G.heap g1 !! a = Some o
                     → StatsMgr.last o ≤ wall (G.instant g1))
      as (Hc & Hm & (new & Ht & Hnew) & Hinv1).
    { destruct e as [b|b].
      - cbn in Hs. destruct (G.heap g !! b) as [o|] eqn:Ho.
        + rewrite (Tick_ok g b o Ho) in Hs. injection Hs as <-. cbn.
          split; [reflexivity|]. split; [reflexivity|]. split.
          { eexists. split; [reflexivity|].
            intros Hin. apply list_elem_of_singleton in Hin. discriminate. }
          intros a o' Ha. destruct (decide (a = b)) as [->|Hne].
          * rewrite list_lookup_insert_eq in Ha
              by (eapply lookup_lt_Some; eauto).
            injection Ha as <-. cbn.
            rewrite deadline_no_overflow by (specialize (Hb (G.instant g)); lia).
            unfold Go.int64_of_millis. rewrite Z.quot_small by lia.
            specialize (Hw (G.instant g)). lia.
          * rewrite list_lookup_insert_ne in Ha by congruence.
            specialize (Hinv a o' Ha). specialize (Hw (G.instant g)). lia.
        + rewrite Tick_dangling in Hs by exact Ho. discriminate.
      - rewrite step_TickerFired in Hs.
        destruct (pollingIter (Some b) TickerC g) as [c g2|] eqn:Hp;
          [|discriminate].
        injection Hs as <-.
        apply pollingIter_cases in Hp as (o & Ho & _ & [[Hlt _]|[_ ->]]).
        + specialize (Hinv b o Ho). lia.
        + cbn. split; [reflexivity|]. split; [reflexivity|]. split.
          { exists []. rewrite app_nil_r.
            split; [reflexivity|apply not_elem_of_nil]. }
          intros a o' Ha. specialize (Hinv a o' Ha).
          specialize (Hw (G.instant g)). lia. }
    destruct (IH g1) as [Hm' Ht']; [congruence|exact Hinv1|exact Hr|].
    split; [congruence|].
    intros Hin. apply Ht'. rewrite Ht, length_app.
    apply list_elem_of_lookup in Hin as [k Hk].
    rewrite lookup_drop in Hk.
    destruct (decide (k < length new)%nat) as [Hlt|Hge].
    + exfalso. apply Hnew. apply list_elem_of_lookup. exists k.
      destruct (run_stamps evs g1 g' 0%nat Hw Hr) as (n2 & Ht2 & _).
      rewrite Ht2, Ht, <- app_assoc in Hk.
      rewrite lookup_app_r in Hk by lia.
      replace (length (G.trace g) + k - length (G.trace g))%nat with k
        in Hk by lia.
      rewrite lookup_app_l in Hk by exact Hlt. exact Hk.
    + apply list_elem_of_lookup. exists (k - length new)%nat.
      rewrite lookup_drop. rewrite <- Hk. f_equal. lia.
Qed.

End SubSecond.

(** * Further properties of the code *)

(** ** The configuration *)

Lemma applyOptions_app (o1 o2 : list Option) (c : config.t) :
  applyOptions (o1 ++ o2) c = applyOptions o2 (applyOptions o1 c).
Proof.
  revert c. induction o1 as [|o o1 IH]; intros c; [reflexivity|].
  cbn. apply IH.
Qed.

(** X1.  Calls of [SetConfiguration] add up: one call with the options
    [o1] followed by [o2] leaves the program in the state that a call with
    [o1] and then a call with [o2] leave it in; nothing is reset in
    between. *)
Theorem SetConfiguration_accumulates (o1 o2 : list Option) (g : G.t) :
  SetConfiguration (o1 ++ o2) g
  = (SetConfiguration o1;; SetConfiguration o2) g.
Proof.
  unfold SetConfiguration. unfold_m. cbn.
  rewrite applyOptions_app. reflexivity.
Qed.

(** X2.  The last option given for a setting decides what the accessor
    answers, whatever options came before it. *)
Theorem last_option_decides (opts : list Option) (g : G.t) :
  (∀ n, ∃ g',
      (SetConfiguration (opts ++ [WithInterval n]);; Interval) g = Ok n g')
  ∧ (∀ s, ∃ g',
      (SetConfiguration (opts ++ [WithTimeFormat s]);; TimeFormat) g
      = Ok s g')
  ∧ (∀ addr, ∃ g',
      (SetConfiguration (opts ++ [WithAddr addr]);; Addr) g = Ok addr g')
  ∧ (∀ addr, ∃ g',
      (SetConfiguration (opts ++ [WithAddr addr]);; LinkAddr) g
      = Ok addr g')
  ∧ (∀ addr, ∃ g',
      (SetConfiguration (opts ++ [WithLinkAddr addr]);; LinkAddr) g
      = Ok addr g')
  ∧ (∃ g',
      (SetConfiguration (opts ++ [WithBrowserOpen]);; BrowserOpen) g
      = Ok true g').
Proof.
  unfold SetConfiguration, Interval, TimeFormat, Addr, LinkAddr, BrowserOpen.
  unfold_m. cbn.
  repeat split; intros; eexists; rewrite applyOptions_app; reflexivity.
Qed.

(** X3.  The two address options do not commute.  [WithAddr] given after
    [WithLinkAddr] undoes it: both addresses are the argument of
    [WithAddr].  Given before, it keeps the listening address, and the
    link address is the argument of [WithLinkAddr]. *)
Theorem address_options_order (a b : string) (c : config.t) :
  applyOptions [WithLinkAddr b; WithAddr a] c = WithAddr a c
  ∧ config.ListenAddr (applyOptions [WithAddr a; WithLinkAddr b] c) = a
  ∧ config.LinkAddr (applyOptions [WithAddr a; WithLinkAddr b] c) = b
  ∧ (a ≠ b →
     applyOptions [WithAddr a; WithLinkAddr b] c
     ≠ applyOptions [WithLinkAddr b; WithAddr a] c).
Proof.
  split; [reflexivity|]. split; [reflexivity|]. split; [reflexivity|].
  intros Hab Heq. apply (f_equal config.LinkAddr) in Heq. cbn in Heq.
  congruence.
Qed.

(** X4.  Two options of the package that assign no common field can be
    given in either order. *)
Theorem options_commute (c1 c2 : optionCall) (c : config.t) :
  Forall (λ f, f ∉ assigned c2) (assigned c1) →
  applyOptions [optionOf c1; optionOf c2] c
  = applyOptions [optionOf c2; optionOf c1] c.
Proof.
  intros Hd. destruct c1, c2; try reflexivity; exfalso;
    refine (bool_decide_eq_false_1 _ _ Hd); reflexivity.
Qed.

Lemma options_commute_witness :
  applyOptions [WithAddr "localhost:8087"; WithTheme ThemeWesteros] defaultCfg0
  = applyOptions [WithTheme ThemeWesteros; WithAddr "localhost:8087"]
      defaultCfg0.
Proof.
  apply (options_commute (CallWithAddr "localhost:8087")
           (CallWithTheme ThemeWesteros) defaultCfg0).
  repeat constructor; apply (bool_decide_unpack _); reflexivity.
Defined.

(** X5.  A list of options of the package changes no field outside the
    ones its members assign. *)
Theorem options_frame (cs : list optionCall) (c : config.t) :
  let c' := applyOptions (map optionOf cs) c in
  (Forall (λ o, FAutoOpenBrowser ∉ assigned o) cs →
   config.AutoOpenBrowser c' = config.AutoOpenBrowser c)
  ∧ (Forall (λ o, FInterval ∉ assigned o) cs →
     config.Interval c' = config.Interval c)
  ∧ (Forall (λ o, FMaxPoints ∉ assigned o) cs →
     config.MaxPoints c' = config.MaxPoints c)
  ∧ (Forall (λ o, FTemplate ∉ assigned o) cs →
     config.Template c' = config.Template c)
  ∧ (Forall (λ o, FListenAddr ∉ assigned o) cs →
     config.ListenAddr c' = config.ListenAddr c)
  ∧ (Forall (λ o, FLinkAddr ∉ assigned o) cs →
     config.LinkAddr c' = config.LinkAddr c)
  ∧ (Forall (λ o, FTimeFormat ∉ assigned o) cs →
     config.TimeFormat c' = config.TimeFormat c)
  ∧ (Forall (λ o, FTheme ∉ assigned o) cs →
     config.Theme c' = config.Theme c).
Proof.
  cbv zeta. revert c. induction cs as [|o cs IH]; intros c.
  - repeat split.
  - cbn [map applyOptions].
    destruct (IH (optionOf o c)) as (I1 & I2 & I3 & I4 & I5 & I6 & I7 & I8).
    repeat split; intros Hf; apply Forall_cons in Hf as [Ho Hf];
      [rewrite (I1 Hf)|rewrite (I2 Hf)|rewrite (I3 Hf)|rewrite (I4 Hf)
      |rewrite (I5 Hf)|rewrite (I6 Hf)|rewrite (I7 Hf)|rewrite (I8 Hf)];
      destruct o; try reflexivity; exfalso; apply Ho;
      cbn; repeat constructor.
Qed.

(** X6.  No option of the package takes back [WithBrowserOpen]: once it is
    in the list, or once the flag is set, the flag is set at the end. *)
Theorem browser_flag_is_never_reset (cs : list optionCall) (c : config.t) :
  config.AutoOpenBrowser c = true ∨ CallWithBrowserOpen ∈ cs →
  config.AutoOpenBrowser (applyOptions (map optionOf cs) c) = true.
Proof.
  revert c. induction cs as [|o cs IH]; intros c [Hc|Hin].
  - exact Hc.
  - apply elem_of_nil in Hin. contradiction.
  - cbn. apply IH. left. destruct o; exact Hc || reflexivity.
  - cbn. apply IH. apply elem_of_cons in Hin as [<-|Hin]; [left|right].
    + reflexivity.
    + exact Hin.
Qed.

Lemma options_frame_witness :
  config.Interval
    (applyOptions
       (map optionOf [CallWithAddr "localhost:8087"; CallWithBrowserOpen])
       defaultCfg0)
  = DefaultInterval.
Proof.
  apply (options_frame [CallWithAddr "localhost:8087"; CallWithBrowserOpen]
           defaultCfg0).
  repeat constructor; apply (bool_decide_unpack _); reflexivity.
Defined.

Lemma browser_flag_is_never_reset_witness :
  config.AutoOpenBrowser
    (applyOptions
       (map optionOf
          [CallWithAddr "localhost:18066"; CallWithBrowserOpen;
           CallWithInterval 500; CallWithTheme ThemeWesteros])
       defaultCfg0)
  = true.
Proof.
  apply browser_flag_is_never_reset. right.
  apply elem_of_cons. right. apply elem_of_cons. left. reflexivity.
Defined.

Lemma address_options_order_witness :
  applyOptions [WithAddr "0.0.0.0:18066"; WithLinkAddr "example.org:80"]
    defaultCfg0
  ≠ applyOptions [WithLinkAddr "example.org:80"; WithAddr "0.0.0.0:18066"]
      defaultCfg0.
Proof.
  apply (address_options_order "0.0.0.0:18066" "example.org:80" defaultCfg0).
  discriminate.
Defined.

(** ** The scheduler *)

Section SchedulerMore.

Context `{Env}.

Lemma NewStatsMgr_panics (ctx : bool) (g : G.t) :
  - 2 ^ 40 ≤ config.Interval (G.defaultCfg g) ≤ 0 →
  NewStatsMgr ctx g = Panic "non-positive interval for NewTicker".
Proof.
  intros Hitv.
  unfold NewStatsMgr, alloc, newTicker, timeNowUnix, Interval. unfold_m.
  cbn. unfold Go.mul64 at 1. rewrite wrap64_small by lia.
  replace (_ * 1000000 >? 0) with false
    by (symmetry; rewrite Z.gtb_ltb; apply Z.ltb_ge; lia).
  reflexivity.
Qed.

End SchedulerMore.

(** X7.  [NewStatsMgr] needs a positive interval: with an interval of zero
    or less the ticker of the polling goroutine cannot be made and the
    program dies; with a positive one the new scheduler is put after the
    ones of the heap, which stay as they are, its sample time is 0, and
    neither the statistics nor the configuration are touched. *)
Theorem NewStatsMgr_needs_positive_interval `{Env} (ctx : bool) (g : G.t) :
  - 2 ^ 40 ≤ config.Interval (G.defaultCfg g) ≤ 2 ^ 40 →
  (config.Interval (G.defaultCfg g) ≤ 0 →
   NewStatsMgr ctx g = Panic "non-positive interval for NewTicker")
  ∧ (0 < config.Interval (G.defaultCfg g) →
     ∃ g1 o,
       NewStatsMgr ctx g = Ok (Some (length (G.heap g))) g1
       ∧ G.heap g1 = G.heap g ++ [o]
       ∧ StatsMgr.time o = 0
       ∧ StatsMgr.Ctx o = ctx
       ∧ (∀ b ob, G.heap g !! b = Some ob → G.heap g1 !! b = Some ob)
       ∧ G.memstats g1 = G.memstats g
       ∧ G.defaultCfg g1 = G.defaultCfg g
       ∧ G.trace g1 = G.trace g).
Proof.
  intros Hr. split; intros Hs.
  - apply NewStatsMgr_panics. lia.
  - eexists _, _. split; [apply NewStatsMgr_ok; lia|]. cbn.
    split; [reflexivity|]. split; [reflexivity|]. split; [reflexivity|].
    split; [|auto]. intros b ob Hb. apply lookup_app_l_Some. exact Hb.
Qed.

Lemma NewStatsMgr_needs_positive_interval_witness :
  let E := linearEnv 100 1 marshalBytes in
  NewStatsMgr false (configured 0)
  = Panic "non-positive interval for NewTicker"
  ∧ ∃ g1 o,
      NewStatsMgr false (scheduled 2000 7) = Ok (Some 1%nat) g1
      ∧ G.heap g1 = [StatsMgr.mk 7 0 false; o]
      ∧ StatsMgr.time o = 0.
Proof.
  intros E. split.
  - apply (@NewStatsMgr_needs_positive_interval E false (configured 0));
      cbn; lia.
  - destruct (@NewStatsMgr_needs_positive_interval E false (scheduled 2000 7))
      as [_ Hok]; [cbn; lia|].
    destruct Hok as (g1 & o & Hn & Hh & Ht & _); [cbn; lia|].
    exists g1, o. split; [exact Hn|]. split; [exact Hh|exact Ht].
Defined.

Section OverlappingPulls.

Context `{Env}.

(** [Tick] is the evaluation of the argument followed by the store. *)
Lemma Tick_eval_store (s : ptr) (g : G.t) :
  Tick s g = (d ← TickArg s; storeLast s d) g.
Proof.
  unfold Tick, TickArg, load, timeNowUnix, Interval. unfold_m.
  destruct s as [a|]; [|reflexivity].
  cbn. destruct (G.heap g !! a); reflexivity.
Qed.

Lemma TickArg_ok (g : G.t) (a : nat) (o : StatsMgr.t) :
  G.heap g !! a = Some o →
  TickArg (Some a) g
  = Ok (Go.add64 (wall (G.instant g))
          (Go.mul64
             (Go.int64_of_millis (config.Interval (G.defaultCfg g))) 2))
      (G.set_instant (S (G.instant g)) g).
Proof.
  intros Ho. unfold TickArg, load, timeNowUnix, Interval. unfold_m.
  cbn. rewrite Ho. reflexivity.
Qed.

Lemma TickArg_dangling (g : G.t) (a : nat) :
  G.heap g !! a = None → TickArg (Some a) g = Panic nilDeref.
Proof.
  intros Ho. unfold TickArg, load. unfold_m. cbn. rewrite Ho. reflexivity.
Qed.

Lemma storeLast_ok (g : G.t) (a : nat) (o : StatsMgr.t) (d : Z) :
  G.heap g !! a = Some o →
  storeLast (Some a) d g
  = Ok tt (G.mk (G.defaultCfg g) (G.memstats g)
             (<[a := StatsMgr.set_last d o]> (G.heap g)) (G.i g)
             (G.instant g) (G.trace g ++ [StoreLast a d])).
Proof.
  intros Ho. unfold storeLast, load. unfold_m. cbn. rewrite Ho. reflexivity.
Qed.

Lemma storeLast_dangling (g : G.t) (a : nat) (d : Z) :
  G.heap g !! a = None → storeLast (Some a) d g = Panic nilDeref.
Proof.
  intros Ho. unfold storeLast, load. unfold_m. cbn. rewrite Ho. reflexivity.
Qed.

(** The deadlines of the heap and the deadlines about to be stored are at
    most twice the interval ahead of the clock, and a step keeps it so. *)
Definition near (itv : Z) (g : G.t) (ws : waiting) : Prop :=
  (∀ b o, G.heap g !! b = Some o →
          1000 * StatsMgr.last o ≤ 1000 * wall (G.instant g) + 2 * itv)
  ∧ Forall (λ p, 1000 * p.2 ≤ 1000 * wall (G.instant g) + 2 * itv) ws.

Lemma near_later (itv : Z) (g g' : G.t) (ws : waiting) :
  (∀ k, wall k ≤ wall (S k)) →
  G.heap g' = G.heap g → (G.instant g ≤ G.instant g')%nat →
  near itv g ws → near itv g' ws.
Proof.
  intros Hw Hh Hi [Hheap Hws].
  pose proof (wall_mono _ _ Hw Hi) as Hclock. split.
  - intros b o Hb. rewrite Hh in Hb. specialize (Hheap b o Hb). lia.
  - eapply Forall_impl; [exact Hws|]. cbn. intros p Hp. lia.
Qed.

Lemma fineStep_near (e : fineEvent) (ws ws' : waiting) (g g' : G.t) :
  0 ≤ config.Interval (G.defaultCfg g) ≤ 2 ^ 53 →
  (∀ k, wall k ≤ wall (S k)) →
  (∀ k, - 2 ^ 62 ≤ wall k ≤ 2 ^ 62) →
  near (config.Interval (G.defaultCfg g)) g ws →
  fineStep e ws g = Ok ws' g' →
  G.defaultCfg g' = G.defaultCfg g
  ∧ near (config.Interval (G.defaultCfg g)) g' ws'.
Proof.
  intros Hitv Hw Hb Hnear Hs. destruct e as [a|j|a]; unfold fineStep in Hs.
  - unfold_m. destruct (G.heap g !! a) as [o|] eqn:Ho.
    + rewrite (TickArg_ok g a o Ho) in Hs. injection Hs as <- <-.
      split; [reflexivity|].
      assert (near (config.Interval (G.defaultCfg g))
                (G.set_instant (S (G.instant g)) g) ws) as [Hh Hq]
        by (apply (near_later _ g); auto; cbn; lia).
      split; [exact Hh|]. apply Forall_app. split; [exact Hq|].
      constructor; [|constructor]. cbn.
      rewrite deadline_no_overflow by (specialize (Hb (G.instant g)); lia).
      destruct (int64_of_millis_bounds (config.Interval (G.defaultCfg g)));
        [lia|].
      specialize (Hw (G.instant g)). lia.
    + rewrite TickArg_dangling in Hs by exact Ho. discriminate.
  - destruct (ws !! j) as [[a d]|] eqn:Hj.
    + unfold_m. destruct (G.heap g !! a) as [o|] eqn:Ho.
      * rewrite (storeLast_ok g a o d Ho) in Hs. injection Hs as <- <-.
        split; [reflexivity|]. destruct Hnear as [Hh Hq]. split.
        -- intros b ob Hob. cbn in Hob. cbn [G.instant].
           destruct (decide (b = a)) as [->|Hne].
           ++ rewrite list_lookup_insert_eq in Hob
                by (eapply lookup_lt_Some; eauto).
              injection Hob as <-. cbn.
              apply (proj1 (Forall_lookup _ _) Hq j (a, d) Hj).
           ++ rewrite list_lookup_insert_ne in Hob by congruence.
              apply (Hh b ob Hob).
        -- cbn [G.instant]. apply Forall_delete. exact Hq.
      * rewrite storeLast_dangling in Hs by exact Ho. discriminate.
    + injection Hs as <- <-. auto.
  - unfold_m.
    destruct (pollingIter (Some a) TickerC g) as [c g1|] eqn:Hp;
      [|discriminate].
    injection Hs as <- <-.
    apply pollingIter_cases in Hp as (o & Ho & _ & [[_ ->]|[_ ->]]).
    + split; [reflexivity|]. destruct Hnear as [Hh Hq].
      assert (wall (G.instant g) ≤ wall (G.instant g + 3)) as Hclock
        by (apply wall_mono; [exact Hw|lia]).
      split.
      * intros b ob Hob. cbn in Hob. cbn [G.instant].
        destruct (decide (b = a)) as [->|Hne].
        -- rewrite list_lookup_insert_eq in Hob
             by (eapply lookup_lt_Some; eauto).
           injection Hob as <-. cbn. specialize (Hh a o Ho). lia.
        -- rewrite list_lookup_insert_ne in Hob by congruence.
           specialize (Hh b ob Hob). lia.
      * cbn [G.instant]. eapply Forall_impl; [exact Hq|].
        cbn. intros p Hpq. lia.
    + split; [reflexivity|].
      apply (near_later _ g); auto. cbn. lia.
Qed.

Lemma fineRun_near (evs : list fineEvent) (ws ws' : waiting) (g g' : G.t) :
  0 ≤ config.Interval (G.defaultCfg g) ≤ 2 ^ 53 →
  (∀ k, wall k ≤ wall (S k)) →
  (∀ k, - 2 ^ 62 ≤ wall k ≤ 2 ^ 62) →
  near (config.Interval (G.defaultCfg g)) g ws →
  fineRun evs ws g = Ok ws' g' →
  G.defaultCfg g' = G.defaultCfg g
  ∧ near (config.Interval (G.defaultCfg g)) g' ws'.
Proof.
  intros Hitv Hw Hb. revert ws g Hitv.
  induction evs as [|e evs IH]; intros ws g Hitv Hnear Hr.
  - cbn in Hr. injection Hr as <- <-. auto.
  - change (fineRun (e :: evs) ws g)
      with (match fineStep e ws g with
            | Ok ws1 g1 => fineRun evs ws1 g1
            | Panic msg => Panic msg
            end) in Hr.
    destruct (fineStep e ws g) as [ws1 g1|] eqn:Hs; [|discriminate].
    destruct (fineStep_near e ws ws1 g g1 Hitv Hw Hb Hnear Hs) as [Hc Hn1].
    rewrite <- Hc in Hitv, Hn1.
    destruct (IH ws1 g1 Hitv Hn1 Hr) as [Hc' Hn'].
    split; [congruence|]. rewrite <- Hc. exact Hn'.
Qed.

End OverlappingPulls.

(** X8.  However pulls overlap with one another and with the ticks - a
    pull reads the clock, computes its deadline and stores it later, and
    anything may run in between - under a clock that never goes back the
    deadline of a scheduler is never more than twice the interval ahead of
    the clock. *)
Theorem deadline_never_far_ahead
    `{Env} (evs : list fineEvent) (ws' : waiting) (g g' : G.t) :
  0 ≤ config.Interval (G.defaultCfg g) ≤ 2 ^ 53 →
  (∀ k, wall k ≤ wall (S k)) →
  (∀ k, - 2 ^ 62 ≤ wall k ≤ 2 ^ 62) →
  (∀ b o, G.heap g !! b = Some o →
          1000 * StatsMgr.last o
          ≤ 1000 * wall (G.instant g) + 2 * config.Interval (G.defaultCfg g)) →
  fineRun evs [] g = Ok ws' g' →
  ∀ b o, G.heap g' !! b = Some o →
         1000 * StatsMgr.last o
         ≤ 1000 * wall (G.instant g') + 2 * config.Interval (G.defaultCfg g).
Proof.
  intros Hitv Hw Hb Hinit Hr.
  destruct (fineRun_near evs [] ws' g g' Hitv Hw Hb) as [_ [Hh _]].
  - split; [exact Hinit|constructor].
  - exact Hr.
  - exact Hh.
Qed.

Lemma deadline_never_far_ahead_witness :
  let E := scriptedEnv [100; 101; 102; 103; 104] 105 marshalBytes in
  let g' := G.mk (G.defaultCfg (scheduled 2000 0)) (runtimeStats 4)
              [StatsMgr.mk 104 103 false] 0 5
              [StoreLast 0 105; StoreLast 0 104;
               MuLock; StoreTime 0 103; ReadMemStats; MuUnlock] in
  fineRun [TickEval 0; TickEval 0; TickStore 1; TickStore 0;
           TickerFiredFine 0] [] (scheduled 2000 0) = Ok [] g'
  ∧ 1000 * StatsMgr.last (StatsMgr.mk 104 103 false)
    ≤ 1000 * wall (G.instant g') + 2 * 2000.
Proof.
  intros E g'.
  assert (fineRun [TickEval 0; TickEval 0; TickStore 1; TickStore 0;
                   TickerFiredFine 0] [] (scheduled 2000 0) = Ok [] g')
    as Hr by (vm_compute; reflexivity).
  split; [exact Hr|].
  apply (@deadline_never_far_ahead E
           [TickEval 0; TickEval 0; TickStore 1; TickStore 0;
            TickerFiredFine 0]
           [] (scheduled 2000 0) g') with (b := 0%nat).
  - cbn. lia.
  - intros k. do 7 (destruct k as [|k]; [cbn; lia|]). cbn. lia.
  - intros k. do 7 (destruct k as [|k]; [cbn; lia|]). cbn. lia.
  - intros b o Hb. destruct b as [|b]; [|destruct b; discriminate].
    injection Hb as <-. cbn. lia.
  - exact Hr.
  - reflexivity.
Defined.

(** The deadline itself can move back when pulls overlap: the pull that
    read the clock first (at 100) stores last, after the one that read it
    at 101, and leaves the deadline at 104 where it was 105. *)
Example overlapping_pulls_move_deadline_back :
  let E := scriptedEnv [100; 101] 101 marshalBytes in
  fineRun [TickEval 0; TickEval 0; TickStore 1] [] (scheduled 2000 0)
  = Ok [(0%nat, 104)]
      (G.set_trace [StoreLast 0 105] (G.set_instant 2 (scheduled 2000 105)))
  ∧ fineRun [TickEval 0; TickEval 0; TickStore 1; TickStore 0] []
      (scheduled 2000 0)
    = Ok []
        (G.set_trace [StoreLast 0 105; StoreLast 0 104]
           (G.set_instant 2 (scheduled 2000 104))).
Proof. split; vm_compute; reflexivity. Qed.

(** X9.  While pulls keep coming, every tick samples: if the clock
    advances by less than twice the interval's whole seconds from one
    instant to the next, then in [n] rounds of a pull followed by a firing
    of the ticker, each of the [n] ticks performs a refresh. *)
Theorem active_dashboard_every_tick_samples
    `{Env} (n : nat) (g : G.t) (a : nat) (o : StatsMgr.t) :
  0 ≤ config.Interval (G.defaultCfg g) ≤ 2 ^ 53 →
  (∀ k, - 2 ^ 62 ≤ wall k ≤ 2 ^ 62) →
  (∀ k, wall (S k)
        < wall k + 2 * Go.int64_of_millis (config.Interval (G.defaultCfg g))) →
  G.heap g !! a = Some o →
  ∃ g' new,
    run (pullTickRounds a n) g = Ok tt g'
    ∧ G.trace g' = G.trace g ++ new
    ∧ stamps a new
      = map (λ j, wall (G.instant g + 4 * j + 2)) (seq 0 n)
    ∧ G.instant g' = (G.instant g + 4 * n)%nat.
Proof.
  intros Hitv Hb Hfast. revert g o Hitv Hfast.
  induction n as [|n IH]; intros g o Hitv Hfast Ho.
  - exists g, []. cbn. rewrite app_nil_r, Nat.add_0_r. auto.
  - set (d := Go.add64 (wall (G.instant g))
                (Go.mul64
                   (Go.int64_of_millis (config.Interval (G.defaultCfg g)))
                   2)).
    set (g1 := G.mk (G.defaultCfg g) (G.memstats g)
                 (<[a := StatsMgr.set_last d o]> (G.heap g)) (G.i g)
                 (S (G.instant g)) (G.trace g ++ [StoreLast a d])).
    assert (G.heap g1 !! a = Some (StatsMgr.set_last d o)) as Ho1.
    { cbn. apply list_lookup_insert_eq. eapply lookup_lt_Some; eauto. }
    assert (wall (G.instant g1) < StatsMgr.last (StatsMgr.set_last d o))
      as Hlt.
    { cbn. unfold d. rewrite deadline_no_overflow
        by (specialize (Hb (G.instant g)); lia).
      apply Hfast. }
    pose proof (pollingIter_refresh g1 a _ Ho1 Hlt) as Hp.
    match type of Hp with _ = Ok true ?s => set (g2 := s) in Hp end.
    destruct (IH g2 (StatsMgr.set_time (wall (G.instant g1 + 1))
                       (StatsMgr.set_last d o)))
      as (g' & new & Hr & Ht & Hst & Hi).
    + exact Hitv.
    + exact Hfast.
    + cbn. apply list_lookup_insert_eq. rewrite length_insert.
      eapply lookup_lt_Some; eauto.
    + exists g', ([StoreLast a d; MuLock;
                   StoreTime a (wall (G.instant g1 + 1)); ReadMemStats;
                   MuUnlock] ++ new).
      split.
      { change (pullTickRounds a (S n))
          with (Pull a :: TickerFired a :: pullTickRounds a n).
        change (run (Pull a :: TickerFired a :: pullTickRounds a n) g)
          with (match Tick (Some a) g with
                | Ok _ s1 =>
                    match step (TickerFired a) s1 with
                    | Ok _ s2 => run (pullTickRounds a n) s2
                    | Panic msg => Panic msg
                    end
                | Panic msg => Panic msg
                end).
        rewrite (Tick_ok g a o Ho). fold d. fold g1.
        rewrite step_TickerFired, Hp. exact Hr. }
      split.
      { rewrite Ht. cbn. rewrite <- !app_assoc. reflexivity. }
      split.
      { rewrite stamps_app. cbn. rewrite decide_True by reflexivity.
        rewrite Hst. cbn. f_equal.
        - f_equal. lia.
        - rewrite <- seq_shift, map_map. apply map_ext. intros j.
          f_equal. lia. }
      rewrite Hi. unfold g2, g1. cbn [G.instant]. lia.
Qed.

Lemma active_dashboard_every_tick_samples_witness :
  let E := scriptedEnv [100; 101; 102; 103; 104; 105; 106; 107] 108
             marshalBytes in
  ∃ g' new,
    run (pullTickRounds 0 2) (scheduled 2000 0) = Ok tt g'
    ∧ G.trace g' = G.trace (scheduled 2000 0) ++ new
    ∧ stamps 0 new = map (λ j, wall (0 + 4 * j + 2)) (seq 0 2)
    ∧ G.instant g' = (0 + 4 * 2)%nat.
Proof.
  intros E.
  apply (@active_dashboard_every_tick_samples E 2 (scheduled 2000 0) 0%nat
           (StatsMgr.mk 0 0 false)).
  - cbn. lia.
  - intros k. do 10 (destruct k as [|k]; [cbn; lia|]). cbn. lia.
  - intros k.
    do 10 (destruct k as [|k]; [vm_compute; reflexivity|]).
    vm_compute. reflexivity.
  - reflexivity.
Defined.

(** X10.  Once the context is done the loop of [polling] returns: the
    channels that become ready afterwards are not served, and the return
    itself changes nothing, so the statistics stay as the last refresh
    left them. *)
Theorem polling_returns_when_done
    `{Env} (s : ptr) (ws rest : list wake) (g : G.t) :
  polling s (ws ++ CtxDone :: rest) g = polling s ws g.
Proof.
  revert g. induction ws as [|w ws IH]; intros g.
  - reflexivity.
  - change ((w :: ws) ++ CtxDone :: rest)
      with (w :: (ws ++ CtxDone :: rest)).
    rewrite !polling_cons.
    destruct (pollingIter s w g) as [[] g1|]; [apply IH|reflexivity..].
Qed.

(** ** The handlers and the scheduler together *)

Section HandlersMore.

Context `{Env}.

Lemma NewStatsMgr_result (ctx : bool) (g g1 : G.t) (p : ptr) :
  NewStatsMgr ctx g = Ok p g1 →
  ∃ d, p = Some (length (G.heap g))
       ∧ g1 = G.mk (G.defaultCfg g) (G.memstats g)
                (G.heap g ++ [StatsMgr.mk d 0 ctx]) (G.i g)
                (S (G.instant g)) (G.trace g).
Proof.
  unfold NewStatsMgr, alloc, newTicker, timeNowUnix, Interval. unfold_m.
  cbn. destruct (_ >? 0); [|discriminate].
  intros Hr. injection Hr as <- <-. eexists. split; reflexivity.
Qed.

(** A handler that returns was called through a scheduler of the heap. *)
Lemma GCNumViewer_Serve_inv (vr : GCNumViewer.t) (w : ResponseWriter)
    (g g' : G.t) :
  GCNumViewer_Serve vr w g = Ok tt g' →
  ∃ a o, GCNumViewer.smgr vr = Some a ∧ G.heap g !! a = Some o.
Proof.
  intros Hr. destruct (GCNumViewer.smgr vr) as [a|] eqn:Hs.
  - destruct (G.heap g !! a) as [o|] eqn:Ho; [eauto|].
    unfold GCNumViewer_Serve in Hr. rewrite Hs in Hr.
    unfold mbind at 1, M_bind at 1 in Hr.
    rewrite Tick_dangling in Hr by exact Ho. discriminate.
  - unfold GCNumViewer_Serve in Hr. rewrite Hs in Hr. discriminate.
Qed.

Lemma StaticViewer_Serve_inv (vs : StaticViewer.t) (w : ResponseWriter)
    (g g' : G.t) :
  StaticViewer_Serve vs w g = Ok tt g' →
  ∃ a o, StaticViewer.smgr vs = Some a ∧ G.heap g !! a = Some o.
Proof.
  intros Hr. destruct (StaticViewer.smgr vs) as [a|] eqn:Hs.
  - destruct (G.heap g !! a) as [o|] eqn:Ho; [eauto|].
    unfold StaticViewer_Serve in Hr. rewrite Hs in Hr.
    unfold mbind at 1, M_bind at 1 in Hr.
    rewrite Tick_dangling in Hr by exact Ho. discriminate.
  - rewrite StaticViewer_Serve_unbound in Hr by exact Hs. discriminate.
Qed.

(** What a pull leaves alone: the statistics and every sample time; and
    what it adds to the trace has no exclusive lock, no statistics read
    and no store of a sample time in it. *)
Lemma servePull_quiet (p : pull) (g g' : G.t) :
  servePull p g = Ok tt g' →
  G.memstats g' = G.memstats g
  ∧ (∀ a, StatsMgr.time <$> G.heap g' !! a = StatsMgr.time <$> G.heap g !! a)
  ∧ ∃ new, G.trace g' = G.trace g ++ new
           ∧ Forall (λ x, x ≠ MuLock ∧ x ≠ ReadMemStats
                          ∧ ∀ a v, x ≠ StoreTime a v) new.
Proof.
  intros Hr.
  assert (∀ b o d a,
            G.heap g !! b = Some o →
            StatsMgr.time <$> <[b := StatsMgr.set_last d o]> (G.heap g) !! a
            = StatsMgr.time <$> G.heap g !! a) as Hframe.
  { intros b o d a Ho. destruct (decide (a = b)) as [->|Hne].
    - rewrite list_lookup_insert_eq by (eapply lookup_lt_Some; eauto).
      rewrite Ho. reflexivity.
    - rewrite list_lookup_insert_ne by congruence. reflexivity. }
  destruct p as [vr w|vs w]; cbn in Hr.
  - destruct (GCNumViewer_Serve_inv _ _ _ _ Hr) as (b & o & Hs & Ho).
    rewrite (GCNumViewer_Serve_ok vr w g b o Hs Ho) in Hr.
    injection Hr as <-. cbn. split; [reflexivity|].
    split; [intros a; apply Hframe; exact Ho|].
    eexists. split; [reflexivity|].
    repeat constructor; discriminate.
  - destruct (StaticViewer_Serve_inv _ _ _ _ Hr) as (b & o & Hs & Ho).
    rewrite (StaticViewer_Serve_ok vs w g b o Hs Ho) in Hr.
    injection Hr as <-. cbn. split; [reflexivity|].
    split; [intros a; apply Hframe; exact Ho|].
    eexists. split; [reflexivity|].
    repeat constructor; discriminate.
Qed.

End HandlersMore.

(** X11.  A pull on one chart keeps the other charts fresh.  Two viewers
    share a scheduler; after a pull of the static viewer, a tick that
    finds the clock below the deadline set by that pull refreshes, and the
    next pull of the GC viewer serves the GC count read by that refresh,
    stamped with the time of that refresh. *)
Theorem pull_on_one_chart_refreshes_the_other
    `{Env} (vs : StaticViewer.t) (vr : GCNumViewer.t) (w w' : ResponseWriter)
    (g : G.t) (a : nat) (o : StatsMgr.t) :
  StaticViewer.smgr vs = Some a → GCNumViewer.smgr vr = Some a →
  G.heap g !! a = Some o →
  0 ≤ config.Interval (G.defaultCfg g) ≤ 2 ^ 53 →
  - 2 ^ 62 ≤ wall (G.instant g) ≤ 2 ^ 62 →
  wall (S (G.instant g))
  < wall (G.instant g)
    + 2 * Go.int64_of_millis (config.Interval (G.defaultCfg g)) →
  ∃ g1 g2 g3,
    StaticViewer_Serve vs w g = Ok tt g1
    ∧ pollingIter (Some a) TickerC g1 = Ok true g2
    ∧ G.memstats g2 = runtimeStats (G.instant g + 3)
    ∧ GCNumViewer_Serve vr w' g2 = Ok tt g3
    ∧ last (G.trace g3)
      = Some (WriteBody w'
                (jsonMarshal
                   {| Metrics.Values :=
                        [MemStats.NumGC (runtimeStats (G.instant g + 3))];
                      Metrics.Time :=
                        formatUnix (wall (G.instant g + 2))
                          (config.TimeFormat (G.defaultCfg g)) |}).1).
Proof.
  intros Hvs Hvr Ho Hitv Hb Hfast.
  set (d := Go.add64 (wall (G.instant g))
              (Go.mul64
                 (Go.int64_of_millis (config.Interval (G.defaultCfg g))) 2)).
  pose proof (StaticViewer_Serve_ok vs w g a o Hvs Ho) as H1.
  cbv zeta in H1. fold d in H1.
  match type of H1 with _ = Ok tt ?s => set (g1 := s) in H1 end.
  assert (G.heap g1 !! a = Some (StatsMgr.set_last d o)) as Ho1.
  { cbn. apply list_lookup_insert_eq. eapply lookup_lt_Some; eauto. }
  assert (wall (G.instant g1) < StatsMgr.last (StatsMgr.set_last d o))
    as Hlt.
  { cbn. unfold d. rewrite deadline_no_overflow by lia. exact Hfast. }
  pose proof (pollingIter_refresh g1 a _ Ho1 Hlt) as H2.
  match type of H2 with _ = Ok true ?s => set (g2 := s) in H2 end.
  assert (G.heap g2 !! a
          = Some (StatsMgr.set_time (wall (G.instant g1 + 1))
                    (StatsMgr.set_last d o))) as Ho2.
  { cbn. apply list_lookup_insert_eq. rewrite length_insert.
    eapply lookup_lt_Some; eauto. }
  pose proof (GCNumViewer_Serve_ok vr w' g2 a _ Hvr Ho2) as H3.
  cbv zeta in H3.
  match type of H3 with _ = Ok tt ?s => set (g3 := s) in H3 end.
  exists g1, g2, g3.
  split; [exact H1|]. split; [exact H2|].
  split; [cbn; f_equal; lia|]. split; [exact H3|].
  unfold g3. cbn [G.trace]. rewrite last_app. cbn.
  repeat (try lia; f_equal).
Qed.

Lemma pull_on_one_chart_refreshes_the_other_witness :
  let E := linearEnv 100 1 marshalBytes in
  let vs := StaticViewer.mk (Some 0%nat)
              (mkLine VStatic "Static count" "Num" ["Count"%string]
                 ThemeMacarons) in
  let vr := GCNumViewer.mk (Some 0%nat)
              (mkLine VGCNum "GC Number" "Num" ["GcNum"%string]
                 ThemeMacarons) in
  ∃ g1 g2 g3,
    StaticViewer_Serve vs 1%nat (scheduled 2000 0) = Ok tt g1
    ∧ pollingIter (Some 0%nat) TickerC g1 = Ok true g2
    ∧ G.memstats g2 = MemStats.mk 3 0 0
    ∧ GCNumViewer_Serve vr 2%nat g2 = Ok tt g3
    ∧ last (G.trace g3)
      = Some (WriteBody 2%nat
                (marshalBytes
                   {| Metrics.Values := [3];
                      Metrics.Time := DefaultTimeFormat |}).1).
Proof.
  intros E vs vr.
  apply (@pull_on_one_chart_refreshes_the_other E vs vr 1%nat 2%nat
           (scheduled 2000 0) 0%nat (StatsMgr.mk 0 0 false)).
  - reflexivity.
  - reflexivity.
  - reflexivity.
  - cbn. lia.
  - cbn. lia.
  - vm_compute. reflexivity.
Defined.

(** X12.  A scheduler starts with the sample time 0: a pull answered before
    the first refresh serves the statistics as they were when the
    scheduler was made, stamped with second 0 of the Unix time. *)
Theorem pull_before_first_refresh_is_stamped_zero
    `{Env} (ctx : bool) (g g1 : G.t) (a : nat) (vr : GCNumViewer.t)
    (w : ResponseWriter) :
  NewStatsMgr ctx g = Ok (Some a) g1 →
  GCNumViewer.smgr vr = Some a →
  ∃ g2,
    GCNumViewer_Serve vr w g1 = Ok tt g2
    ∧ last (G.trace g2)
      = Some (WriteBody w
                (jsonMarshal
                   {| Metrics.Values := [MemStats.NumGC (G.memstats g)];
                      Metrics.Time :=
                        formatUnix 0
                          (config.TimeFormat (G.defaultCfg g)) |}).1).
Proof.
  intros Hn Hvr.
  apply NewStatsMgr_result in Hn as (d & Ha & ->).
  injection Ha as ->.
  eexists. split.
  - apply (GCNumViewer_Serve_ok vr w _ _ (StatsMgr.mk d 0 ctx) Hvr).
    cbn. rewrite lookup_app_r by lia. rewrite Nat.sub_diag. reflexivity.
  - cbn. rewrite last_app. reflexivity.
Qed.

Lemma pull_before_first_refresh_is_stamped_zero_witness :
  let E := linearEnv 100 1 marshalBytes in
  let vr := GCNumViewer.mk (Some 0%nat)
              (mkLine VGCNum "GC Number" "Num" ["GcNum"%string]
                 ThemeMacarons) in
  ∃ g2,
    GCNumViewer_Serve vr 1%nat (G.set_instant 1 (scheduled 2000 104))
    = Ok tt g2
    ∧ last (G.trace g2)
      = Some (WriteBody 1%nat
                (jsonMarshal
                   {| Metrics.Values := [0];
                      Metrics.Time := formatUnix 0 DefaultTimeFormat |}).1).
Proof.
  intros E vr.
  apply (@pull_before_first_refresh_is_stamped_zero E false (configured 2000)
           (G.set_instant 1 (scheduled 2000 104)) 0%nat vr 1%nat).
  - vm_compute. reflexivity.
  - reflexivity.
Defined.

(** X13.  The constructors leave the scheduler of a viewer nil, and a
    handler called on such a viewer panics on the nil pointer; once
    [SetStatsMgr] has given it a scheduler of the heap, the handler
    returns. *)
Theorem fresh_viewer_panics_until_bound
    `{Env} `{ChartLib} (g g1 g2 : G.t) (vr : GCNumViewer.t)
    (vs : StaticViewer.t) (w : ResponseWriter) (gs : G.t) (a : nat)
    (o : StatsMgr.t) :
  NewGCNumViewer g = Ok vr g1 → NewStaticViewer g = Ok vs g2 →
  G.heap gs !! a = Some o →
  GCNumViewer.smgr vr = None
  ∧ StaticViewer.smgr vs = None
  ∧ GCNumViewer_Serve vr w gs = Panic nilDeref
  ∧ StaticViewer_Serve vs w gs = Panic nilDeref
  ∧ (∃ gs', GCNumViewer_Serve (GCNumViewer_SetStatsMgr vr (Some a)) w gs
            = Ok tt gs')
  ∧ (∃ gs', StaticViewer_Serve (StaticViewer_SetStatsMgr vs (Some a)) w gs
            = Ok tt gs').
Proof.
  intros Hr Hs Ho.
  unfold NewGCNumViewer, NewStaticViewer, NewBasicView, genViewTemplate,
    chartsNewLine in Hr, Hs.
  unfold_m. cbn in Hr, Hs.
  destruct (templateParse _); [discriminate|].
  destruct (templateExecute _ _) in Hr; [|discriminate].
  destruct (templateExecute _ _) in Hs; [|discriminate].
  cbn in Hr, Hs. injection Hr as <- _. injection Hs as <- _.
  split; [reflexivity|]. split; [reflexivity|].
  split; [reflexivity|]. split; [reflexivity|]. split.
  - eexists.
    apply GCNumViewer_Serve_ok with (a := a) (o := o);
      [reflexivity|exact Ho].
  - eexists.
    apply StaticViewer_Serve_ok with (a := a) (o := o);
      [reflexivity|exact Ho].
Qed.

Lemma fresh_viewer_panics_until_bound_witness :
  let E := linearEnv 100 1 marshalBytes in
  let vr := GCNumViewer.mk None
              (mkLine VGCNum "GC Number" "Num" ["GcNum"%string]
                 ThemeMacarons) in
  let vs := StaticViewer.mk None
              (mkLine VStatic "Static count" "Num" ["Count"%string]
                 ThemeMacarons) in
  let gs := scheduled 2000 0 in
  @NewGCNumViewer plainCharts G.init = Ok vr (G.set_instant 1 G.init)
  ∧ @NewStaticViewer plainCharts G.init = Ok vs (G.set_instant 1 G.init)
  ∧ GCNumViewer_Serve vr 1%nat gs = Panic nilDeref
  ∧ StaticViewer_Serve vs 1%nat gs = Panic nilDeref
  ∧ (∃ gs', GCNumViewer_Serve (GCNumViewer_SetStatsMgr vr (Some 0%nat))
              1%nat gs = Ok tt gs')
  ∧ (∃ gs', StaticViewer_Serve (StaticViewer_SetStatsMgr vs (Some 0%nat))
              1%nat gs = Ok tt gs').
Proof.
  intros E vr vs gs.
  assert (@NewGCNumViewer plainCharts G.init = Ok vr (G.set_instant 1 G.init))
    as H1 by (vm_compute; reflexivity).
  assert (@NewStaticViewer plainCharts G.init
          = Ok vs (G.set_instant 1 G.init))
    as H2 by (vm_compute; reflexivity).
  split; [exact H1|]. split; [exact H2|].
  apply (@fresh_viewer_panics_until_bound E plainCharts G.init
           (G.set_instant 1 G.init) (G.set_instant 1 G.init) vr vs 1%nat
           gs 0%nat (StatsMgr.mk 0 0 false) H1 H2 eq_refl).
Defined.

(** X18.  A viewer cannot be made with a template that does not parse or
    does not execute: the constructors panic with the error of the
    template library, before any viewer exists.  With a template that
    does both they return a viewer with its name as route, its title and
    series, the theme configured at that moment and no scheduler. *)
Theorem constructors_need_a_working_template `{ChartLib} (g : G.t) :
  let text := config.Template (G.defaultCfg g) in
  let data := λ route,
    viewData.mk (config.Interval (G.defaultCfg g))
      (config.MaxPoints (G.defaultCfg g)) (config.LinkAddr (G.defaultCfg g))
      route (chartID (G.instant g)) in
  (∀ err, templateParse text = Some err →
     NewGCNumViewer g = Panic ("statsview: failed to parse template " ++ err)
     ∧ NewStaticViewer g
       = Panic ("statsview: failed to parse template " ++ err))
  ∧ (∀ err, templateParse text = None →
       templateExecute text (data VGCNum) = inr err →
       NewGCNumViewer g
       = Panic ("statsview: failed to execute template " ++ err))
  ∧ (∀ err, templateParse text = None →
       templateExecute text (data VStatic) = inr err →
       NewStaticViewer g
       = Panic ("statsview: failed to execute template " ++ err))
  ∧ (∀ js, templateParse text = None →
       templateExecute text (data VGCNum) = inl js →
       NewGCNumViewer g
       = Ok (GCNumViewer.mk None
               (mkLine VGCNum "GC Number" "Num" ["GcNum"%string]
                  (config.Theme (G.defaultCfg g))))
           (G.set_instant (S (G.instant g)) g))
  ∧ (∀ js, templateParse text = None →
       templateExecute text (data VStatic) = inl js →
       NewStaticViewer g
       = Ok (StaticViewer.mk None
               (mkLine VStatic "Static count" "Num" ["Count"%string]
                  (config.Theme (G.defaultCfg g))))
           (G.set_instant (S (G.instant g)) g)).
Proof.
  cbv zeta.
  unfold NewGCNumViewer, NewStaticViewer, NewBasicView, genViewTemplate,
    chartsNewLine.
  unfold_m. cbn.
  split; [intros err ->; split; reflexivity|].
  split; [intros err -> ->; reflexivity|].
  split; [intros err -> ->; reflexivity|].
  split; intros js -> ->; reflexivity.
Qed.

Lemma constructors_need_a_working_template_witness :
  @NewGCNumViewer brokenTemplates G.init
  = Panic "statsview: failed to parse template unexpected EOF"
  ∧ @NewStaticViewer plainCharts (configured 2000)
    = Ok (StaticViewer.mk None
            (mkLine VStatic "Static count" "Num" ["Count"%string]
               ThemeMacarons))
        (G.set_instant 1 (configured 2000)).
Proof.
  split.
  - destruct (@constructors_need_a_working_template brokenTemplates G.init)
      as [Hparse _].
    destruct (Hparse "unexpected EOF"%string eq_refl) as [Hp _]. exact Hp.
  - destruct (@constructors_need_a_working_template plainCharts
                (configured 2000)) as (_ & _ & _ & _ & Hok).
    apply (Hok DefaultTemplate); reflexivity.
Defined.

(** X14.  Pulls alone never sample.  However many pulls of the two
    viewers are answered, the statistics and the sample time of every
    scheduler stay as they were, and the handlers neither take the
    exclusive lock nor read the statistics of the runtime: the data served
    only changes when the ticker fires. *)
Theorem pulls_never_sample `{Env} (ps : list pull) (g g' : G.t) :
  servePulls ps g = Ok tt g' →
  G.memstats g' = G.memstats g
  ∧ (∀ a, StatsMgr.time <$> G.heap g' !! a = StatsMgr.time <$> G.heap g !! a)
  ∧ ∃ new, G.trace g' = G.trace g ++ new
           ∧ Forall (λ x, x ≠ MuLock ∧ x ≠ ReadMemStats
                          ∧ ∀ a v, x ≠ StoreTime a v) new.
Proof.
  revert g. induction ps as [|p ps IH]; intros g Hr.
  - cbn in Hr. injection Hr as <-. split; [reflexivity|].
    split; [reflexivity|]. exists []. rewrite app_nil_r. auto.
  - change (servePulls (p :: ps) g)
      with (match servePull p g with
            | Ok _ g1 => servePulls ps g1
            | Panic msg => Panic msg
            end) in Hr.
    destruct (servePull p g) as [[] g1|] eqn:Hp; [|discriminate].
    apply servePull_quiet in Hp as (Hm1 & Ht1 & n1 & Hn1 & Hq1).
    apply IH in Hr as (Hm2 & Ht2 & n2 & Hn2 & Hq2).
    split; [congruence|]. split.
    + intros a. rewrite Ht2. apply Ht1.
    + exists (n1 ++ n2). rewrite Hn2, Hn1, app_assoc.
      split; [reflexivity|]. apply Forall_app. auto.
Qed.

Lemma pulls_never_sample_witness :
  let E := linearEnv 100 1 marshalBytes in
  let vs := StaticViewer.mk (Some 0%nat)
              (mkLine VStatic "Static count" "Num" ["Count"%string]
                 ThemeMacarons) in
  let vr := GCNumViewer.mk (Some 0%nat)
              (mkLine VGCNum "GC Number" "Num" ["GcNum"%string]
                 ThemeMacarons) in
  let g := scheduled 2000 0 in
  let g' := G.mk (G.defaultCfg g) (G.memstats g)
              [StatsMgr.mk 106 0 false] 2 3
              [StoreLast 0 104; WriteBody 1%nat [x00];
               StoreLast 0 105; MuRLock; MuRUnlock; WriteBody 2%nat [x00];
               StoreLast 0 106; WriteBody 3%nat [x01]] in
  G.memstats g' = G.memstats g
  ∧ (∀ a, StatsMgr.time <$> G.heap g' !! a = StatsMgr.time <$> G.heap g !! a)
  ∧ ∃ new, G.trace g' = G.trace g ++ new
           ∧ Forall (λ x, x ≠ MuLock ∧ x ≠ ReadMemStats
                          ∧ ∀ a v, x ≠ StoreTime a v) new.
Proof.
  intros E vs vr g g'.
  apply (@pulls_never_sample E
           [PullStatic vs 1%nat; PullGCNum vr 2%nat; PullStatic vs 3%nat]
           g g').
  vm_compute. reflexivity.
Defined.

(** X15.  The statistics are shared by all schedulers, the sample time is
    not.  When the tick of one scheduler refreshes, a viewer of another
    scheduler serves the GC count read by that refresh, stamped with the
    older sample time of its own scheduler. *)
Theorem statistics_are_shared_across_schedulers
    `{Env} (g : G.t) (a b : nat) (oa ob : StatsMgr.t) (vr : GCNumViewer.t)
    (w : ResponseWriter) :
  a ≠ b →
  G.heap g !! a = Some oa → G.heap g !! b = Some ob →
  wall (G.instant g) < StatsMgr.last oa →
  GCNumViewer.smgr vr = Some b →
  ∃ g1 g2,
    pollingIter (Some a) TickerC g = Ok true g1
    ∧ G.heap g1 !! b = Some ob
    ∧ GCNumViewer_Serve vr w g1 = Ok tt g2
    ∧ last (G.trace g2)
      = Some (WriteBody w
                (jsonMarshal
                   {| Metrics.Values :=
                        [MemStats.NumGC (runtimeStats (G.instant g + 2))];
                      Metrics.Time :=
                        formatUnix (StatsMgr.time ob)
                          (config.TimeFormat (G.defaultCfg g)) |}).1).
Proof.
  intros Hab Ha Hb Hlt Hvr.
  pose proof (pollingIter_refresh g a oa Ha Hlt) as H1.
  match type of H1 with _ = Ok true ?s => set (g1 := s) in H1 end.
  assert (G.heap g1 !! b = Some ob) as Hb1.
  { cbn. rewrite list_lookup_insert_ne by exact Hab. exact Hb. }
  pose proof (GCNumViewer_Serve_ok vr w g1 b ob Hvr Hb1) as H2.
  cbv zeta in H2.
  match type of H2 with _ = Ok tt ?s => set (g2 := s) in H2 end.
  exists g1, g2. split; [exact H1|]. split; [exact Hb1|].
  split; [exact H2|].
  unfold g2. cbn [G.trace]. rewrite last_app. reflexivity.
Qed.

Lemma statistics_are_shared_across_schedulers_witness :
  let E := linearEnv 100 1 marshalBytes in
  let g := G.set_heap [StatsMgr.mk 104 0 false; StatsMgr.mk 50 42 false]
             (configured 2000) in
  let vr := GCNumViewer.mk (Some 1%nat)
              (mkLine VGCNum "GC Number" "Num" ["GcNum"%string]
                 ThemeMacarons) in
  ∃ g1 g2,
    pollingIter (Some 0%nat) TickerC g = Ok true g1
    ∧ G.heap g1 !! 1%nat = Some (StatsMgr.mk 50 42 false)
    ∧ GCNumViewer_Serve vr 9%nat g1 = Ok tt g2
    ∧ last (G.trace g2)
      = Some (WriteBody 9%nat
                (jsonMarshal
                   {| Metrics.Values := [MemStats.NumGC (runtimeStats 2)];
                      Metrics.Time :=
                        formatUnix 42 DefaultTimeFormat |}).1).
Proof.
  intros E g vr.
  apply (@statistics_are_shared_across_schedulers E g 0%nat 1%nat
           (StatsMgr.mk 104 0 false) (StatsMgr.mk 50 42 false) vr 9%nat).
  - discriminate.
  - reflexivity.
  - reflexivity.
  - cbn. lia.
  - reflexivity.
Defined.

(** ** The collection of viewers, continued *)

(** X16.  Registering in several calls is registering in one: the
    collection after [Register(a...)] and then [Register(b...)] is the
    one after [Register] of [a] followed by [b]; the names come in the
    order of registration, and on the empty collection [Register] yields
    its arguments. *)
Theorem Register_composes (v : Viewers) (xs ys : list Viewer) :
  Register (Register v xs) ys = Register v (xs ++ ys)
  ∧ map viewerName (Register v xs) = map viewerName v ++ map viewerName xs
  ∧ Register NewEmptyViewers xs = xs
  ∧ Register v [] = v.
Proof.
  unfold Register, NewEmptyViewers, Viewers in *.
  split; [symmetry; apply app_assoc|]. split; [apply map_app|].
  split; [reflexivity|apply app_nil_r].
Qed.

(** ** The accessors of a scheduler *)

(** X17.  The accessors read back what the last store wrote.  After
    [Tick], [GetTick] answers the deadline computed by that call and
    [GetTime] the sample time as it was; after [TimeUpdate], [GetTime]
    answers the clock reading of that call and [GetTick] the deadline as
    it was. *)
Theorem accessors_read_back_stores
    `{Env} (g : G.t) (a : nat) (o : StatsMgr.t) :
  G.heap g !! a = Some o →
  0 ≤ config.Interval (G.defaultCfg g) ≤ 2 ^ 53 →
  let d := Go.add64 (wall (G.instant g))
             (Go.mul64
                (Go.int64_of_millis (config.Interval (G.defaultCfg g))) 2) in
  (∃ g1, Tick (Some a) g = Ok tt g1
         ∧ GetTick (Some a) g1 = Ok d g1
         ∧ GetTime (Some a) g1 = Ok (StatsMgr.time o) g1)
  ∧ (∃ g1, TimeUpdate (Some a) g = Ok tt g1
           ∧ GetTime (Some a) g1 = Ok (wall (G.instant g)) g1
           ∧ GetTick (Some a) g1 = Ok (StatsMgr.last o) g1).
Proof.
  intros Ho _ d.
  assert (a < length (G.heap g))%nat as Hlen
    by (eapply lookup_lt_Some; eauto).
  split.
  - eexists. split; [apply (Tick_ok g a o Ho)|].
    unfold GetTick, GetTime, load. unfold_m. cbn.
    rewrite list_lookup_insert_eq by exact Hlen. split; reflexivity.
  - eexists. split; [apply (TimeUpdate_ok g a o Ho)|].
    unfold GetTick, GetTime, load. unfold_m. cbn.
    rewrite list_lookup_insert_eq by exact Hlen. split; reflexivity.
Qed.

Lemma accessors_read_back_stores_witness :
  let E := linearEnv 100 1 marshalBytes in
  let g := scheduled 2000 7 in
  (∃ g1, Tick (Some 0%nat) g = Ok tt g1
         ∧ GetTick (Some 0%nat) g1 = Ok 104 g1
         ∧ GetTime (Some 0%nat) g1 = Ok 0 g1)
  ∧ (∃ g1, TimeUpdate (Some 0%nat) g = Ok tt g1
           ∧ GetTime (Some 0%nat) g1 = Ok 100 g1
           ∧ GetTick (Some 0%nat) g1 = Ok 7 g1).
Proof.
  intros E g.
  apply (@accessors_read_back_stores E g 0%nat (StatsMgr.mk 7 0 false)).
  - reflexivity.
  - cbn. lia.
Defined.
